(** * Optimistic updates and change-stream reconciliation of the todo app

    A shallow embedding of [todo-app/src/App.tsx] and
    [todo-app/src/lib/supabase.ts].

    - The item store is the React state [todos], an ordered list of rows.
    - Every [async] handler of [TodoApp] is a small script ([Async]): a
      sequence of state updates, console output and awaited remote requests.
    - The browser event loop ([step], [exec]) runs one callback to completion
      at a time: a user intent, a change-stream payload, or the completion of
      an awaited request.  A handler suspended at an [await] sits in
      [pending] until its request completes, so other callbacks may run in
      between.
    - [setTodos(updater)] is modelled as applying [updater] to the store at
      once; React applies queued updaters in the order they were queued, so
      the resulting store is the same.
    - A handler is a closure of the render that created it: the [todos],
      [newTodo], [newTodoStatus] and [user] it reads are those of that
      render ([Page]), while its updaters read the store as it is when they
      run.  [InvokeOn page] is an intent issued on any page, [Invoke] an
      intent issued on the page that shows the current state.
    - A [string] holds the UTF-8 encoding of a JavaScript string. *)

From Stdlib Require Import String Ascii Bool Arith Lia List Permutation.
Import ListNotations.
Local Open Scope string_scope.
Local Open Scope list_scope.

(** ** Data model ([types/database.ts]) *)

(** [type TodoStatus = 'todo' | 'in-progress' | 'done'] *)
Inductive TodoStatus : Type :=
| status_todo
| status_in_progress
| status_done.

(** [Database['public']['Tables']['todos']['Row']] *)
Record Todo : Type := mkTodo {
  id : string;
  user_id : string;
  text : string;
  completed : bool;
  status : TodoStatus;
  created_at : string;
  updated_at : string
}.

(** [{ ...todo, completed: c }] *)
Definition with_completed (c : bool) (todo : Todo) : Todo :=
  mkTodo (id todo) (user_id todo) (text todo) c (status todo)
         (created_at todo) (updated_at todo).

(** [{ ...todo, status: s }] *)
Definition with_status (s : TodoStatus) (todo : Todo) : Todo :=
  mkTodo (id todo) (user_id todo) (text todo) (completed todo) s
         (created_at todo) (updated_at todo).

(** The authenticated user of [useAuth()]; only [user.id] is read. *)
Record User : Type := mkUser { uid : string }.

(** The row sent by [addTodo]: no identifier, no timestamps. *)
Record InsertRow : Type := mkInsertRow {
  ins_user_id : string;
  ins_text : string;
  ins_completed : bool;
  ins_status : TodoStatus
}.

(** Remote writes on the table [todos]. *)
Inductive Query : Type :=
| QInsert (row : InsertRow)                       (* .insert(row).select().single() *)
| QUpdateCompleted (i : string) (c : bool)        (* .update({ completed }).eq('id', i) *)
| QUpdateStatus (i : string) (s : TodoStatus)     (* .update({ status }).eq('id', i) *)
| QDelete (i : string)                            (* .delete().eq('id', i) *)
| QDeleteIn (ids : list string).                  (* .delete().in('id', ids) *)

Definition PostgrestError : Type := string.

(** The [{ data, error }] of a completed request: either the confirmed row
    of [.single()], or nothing, or an error. *)
Inductive Response : Type :=
| Row (data : Todo)
| NoContent
| Failed (error : PostgrestError).

(** ** The pure updaters passed to [setTodos] *)

Module Updater.

(** INSERT payload, lines 68-73. *)
Definition on_insert (new : Todo) (current : list Todo) : list Todo :=
  let exists_ := existsb (fun todo => id todo =? id new) current in
  if exists_ then current else new :: current.

(** UPDATE payload, lines 75-79. *)
Definition on_update (new : Todo) (current : list Todo) : list Todo :=
  map (fun todo => if id todo =? id new then new else todo) current.

(** DELETE payload, lines 81-83. *)
Definition on_delete (old_id : string) (current : list Todo) : list Todo :=
  filter (fun todo => negb (id todo =? old_id)) current.

(** [addTodo], success path, line 112. *)
Definition add (data : Todo) (current : list Todo) : list Todo :=
  data :: current.

(** [toggleTodo] and [updateTodoStatus]: both the optimistic update and the
    revert set one field of every row carrying the identifier. *)
Definition set_completed (i : string) (c : bool) (current : list Todo) : list Todo :=
  map (fun todo => if id todo =? i then with_completed c todo else todo) current.

Definition set_status (i : string) (s : TodoStatus) (current : list Todo) : list Todo :=
  map (fun todo => if id todo =? i then with_status s todo else todo) current.

(** [deleteTodo], line 176. *)
Definition remove (i : string) (current : list Todo) : list Todo :=
  filter (fun todo => negb (id todo =? i)) current.

(** [deleteTodo], revert, line 184. *)
Definition restore (deletedTodo : Todo) (current : list Todo) : list Todo :=
  deletedTodo :: current.

(** [clearCompleted], line 194. *)
Definition clear (current : list Todo) : list Todo :=
  filter (fun t => negb (completed t)) current.

(** [clearCompleted], revert, line 201. *)
Definition restore_all (completedTodos current : list Todo) : list Todo :=
  completedTodos ++ current.

End Updater.

(** ** Handlers as scripts *)

Inductive Async : Type :=
| Return
| SetTodos (updater : list Todo -> list Todo) (k : Async)
| SetNewTodo (v : string) (k : Async)
| SetNewTodoStatus (v : TodoStatus) (k : Async)
| ConsoleError (msg : string) (k : Async)
| Await (q : Query) (k : Response -> Async).

(** [String.prototype.trim] strips, at both ends, the code points of
    WhiteSpace and LineTerminator: U+0009 to U+000D, U+0020, U+00A0, U+1680,
    U+2000 to U+200A, U+2028, U+2029, U+202F, U+205F, U+3000 and U+FEFF.
    They are recognised here by their UTF-8 encodings. *)

(** TAB, LF, VT, FF, CR and SPACE: one byte each. *)
Definition is_space (c : ascii) : bool :=
  let n := nat_of_ascii c in
  (((9 <=? n) && (n <=? 13)) || (n =? 32))%nat.

(** U+00A0 is C2 A0. *)
Definition is_space2 (c1 c2 : ascii) : bool :=
  ((nat_of_ascii c1 =? 194) && (nat_of_ascii c2 =? 160))%nat.

(** The white space of three bytes. *)
Definition is_space3 (c1 c2 c3 : ascii) : bool :=
  let a := nat_of_ascii c1 in
  let b := nat_of_ascii c2 in
  let c := nat_of_ascii c3 in
  (((a =? 225) && (b =? 154) && (c =? 128))           (* U+1680: E1 9A 80 *)
   || ((a =? 226) && (b =? 128) &&
       (((128 <=? c) && (c <=? 138))                  (* U+2000-200A: E2 80 80-8A *)
        || (c =? 168) || (c =? 169)                   (* U+2028, U+2029: E2 80 A8, A9 *)
        || (c =? 175)))                               (* U+202F: E2 80 AF *)
   || ((a =? 226) && (b =? 129) && (c =? 159))        (* U+205F: E2 81 9F *)
   || ((a =? 227) && (b =? 128) && (c =? 128))        (* U+3000: E3 80 80 *)
   || ((a =? 239) && (b =? 187) && (c =? 191)))%nat.  (* U+FEFF: EF BB BF *)

(** The rest of [s] after its first code point, when that is white space. *)
Definition skip_space (s : string) : option string :=
  match s with
  | String c1 s1 =>
      if is_space c1 then Some s1
      else
        match s1 with
        | String c2 s2 =>
            if is_space2 c1 c2 then Some s2
            else
              match s2 with
              | String c3 s3 => if is_space3 c1 c2 c3 then Some s3 else None
              | EmptyString => None
              end
        | EmptyString => None
        end
  | EmptyString => None
  end.

Fixpoint trim_start (s : string) : string :=
  match s with
  | String c1 s1 =>
      if is_space c1 then trim_start s1
      else
        match s1 with
        | String c2 s2 =>
            if is_space2 c1 c2 then trim_start s2
            else
              match s2 with
              | String c3 s3 => if is_space3 c1 c2 c3 then trim_start s3 else s
              | EmptyString => s
              end
        | EmptyString => s
        end
  | EmptyString => EmptyString
  end.

(** [s] consists of white space only. *)
Fixpoint all_space (s : string) : bool :=
  match s with
  | String c1 s1 =>
      if is_space c1 then all_space s1
      else
        match s1 with
        | String c2 s2 =>
            if is_space2 c1 c2 then all_space s2
            else
              match s2 with
              | String c3 s3 => if is_space3 c1 c2 c3 then all_space s3 else false
              | EmptyString => false
              end
        | EmptyString => false
        end
  | EmptyString => true
  end.

Fixpoint trim_end (s : string) : string :=
  match s with
  | String c s' => if all_space s then EmptyString else String c (trim_end s')
  | EmptyString => EmptyString
  end.

Definition trim (s : string) : string := trim_end (trim_start s).

(** [if (error) ... else ...] on the response of a request. *)
Definition error_of (r : Response) : option PostgrestError :=
  match r with
  | Failed e => Some e
  | _ => None
  end.

(** Lines 94-116.  [user], [newTodo] and [newTodoStatus] are the values the
    rendered closure holds. *)
Definition addTodo (user : option User) (newTodo : string)
    (newTodoStatus : TodoStatus) : Async :=
  match user with
  | None => Return
  | Some u =>
      if trim newTodo =? "" then Return
      else
        Await (QInsert (mkInsertRow (uid u) (trim newTodo) false newTodoStatus))
          (fun r =>
             match r with
             | Failed _ => ConsoleError "Error adding todo:" Return
             | Row data =>
                 SetTodos (Updater.add data)
                   (SetNewTodo "" (SetNewTodoStatus status_todo Return))
             | NoContent => Return    (* [.single()] never completes so *)
             end)
  end.

(** Lines 118-140. *)
Definition toggleTodo (i : string) (completed : bool) : Async :=
  SetTodos (Updater.set_completed i (negb completed))
    (Await (QUpdateCompleted i (negb completed))
       (fun r =>
          match error_of r with
          | Some _ =>
              ConsoleError "Error toggling todo:"
                (SetTodos (Updater.set_completed i completed) Return)
          | None => Return
          end)).

(** Lines 142-169.  [todos] is the list the rendered closure holds. *)
Definition updateTodoStatus (todos : list Todo) (i : string)
    (s : TodoStatus) : Async :=
  let oldStatus := option_map status (find (fun t => id t =? i) todos) in
  SetTodos (Updater.set_status i s)
    (Await (QUpdateStatus i s)
       (fun r =>
          match error_of r with
          | Some _ =>
              ConsoleError "Error updating todo status:"
                match oldStatus with
                | Some old => SetTodos (Updater.set_status i old) Return
                | None => Return
                end
          | None => Return
          end)).

(** Lines 171-187. *)
Definition deleteTodo (todos : list Todo) (i : string) : Async :=
  let deletedTodo := find (fun t => id t =? i) todos in
  SetTodos (Updater.remove i)
    (Await (QDelete i)
       (fun r =>
          match error_of r with
          | Some _ =>
              ConsoleError "Error deleting todo:"
                match deletedTodo with
                | Some d => SetTodos (Updater.restore d) Return
                | None => Return
                end
          | None => Return
          end)).

(** Lines 189-203. *)
Definition clearCompleted (todos : list Todo) : Async :=
  let completedTodos := filter (fun t => completed t) todos in
  let completedIds := map id completedTodos in
  SetTodos Updater.clear
    (Await (QDeleteIn completedIds)
       (fun r =>
          match error_of r with
          | Some _ =>
              ConsoleError "Error clearing completed todos:"
                (SetTodos (Updater.restore_all completedTodos) Return)
          | None => Return
          end)).

(** The payload of a [postgres_changes] notification. *)
Inductive Payload : Type :=
| INSERT (new : Todo)
| UPDATE (new : Todo)
| DELETE (old_id : string).

(** Lines 66-85. *)
Definition on_postgres_changes (payload : Payload) : Async :=
  match payload with
  | INSERT new => SetTodos (Updater.on_insert new) Return
  | UPDATE new => SetTodos (Updater.on_update new) Return
  | DELETE old_id => SetTodos (Updater.on_delete old_id) Return
  end.

(** ** The event loop *)

(** What a callback did, in the order it did it. *)
Inductive Effect : Type :=
| Mutated (before after : list Todo)     (* setTodos *)
| Issued (q : Query)                     (* a remote write left the client *)
| Logged (msg : string).                 (* console.error *)

(** The state of [TodoApp] together with the handlers suspended at an
    [await] and the effects performed so far. *)
Record World : Type := mkWorld {
  user : option User;
  todos : list Todo;
  newTodo : string;
  newTodoStatus : TodoStatus;
  pending : list (Response -> Async);
  log : list Effect
}.

(** Runs a script until it returns or suspends at an [await]. *)
Fixpoint run (h : Async) (w : World) : World :=
  match h with
  | Return => w
  | SetTodos updater k =>
      run k (mkWorld (user w) (updater (todos w)) (newTodo w) (newTodoStatus w)
               (pending w) (log w ++ [Mutated (todos w) (updater (todos w))]))
  | SetNewTodo v k =>
      run k (mkWorld (user w) (todos w) v (newTodoStatus w) (pending w) (log w))
  | SetNewTodoStatus v k =>
      run k (mkWorld (user w) (todos w) (newTodo w) v (pending w) (log w))
  | ConsoleError msg k =>
      run k (mkWorld (user w) (todos w) (newTodo w) (newTodoStatus w)
               (pending w) (log w ++ [Logged msg]))
  | Await q k =>
      mkWorld (user w) (todos w) (newTodo w) (newTodoStatus w)
        (pending w ++ [k]) (log w ++ [Issued q])
  end.

(** The five mutating user intents. *)
Inductive Intent : Type :=
| AddTodo
| ToggleTodo (i : string) (completed : bool)
| UpdateTodoStatus (i : string) (s : TodoStatus)
| DeleteTodo (i : string)
| ClearCompleted.

(** The values a render of [TodoApp] read from the state (lines 29-32); the
    handlers created by that render close over them. *)
Record Page : Type := mkPage {
  p_user : option User;
  p_todos : list Todo;
  p_newTodo : string;
  p_newTodoStatus : TodoStatus
}.

(** The page that shows the current state. *)
Definition page_of (w : World) : Page :=
  mkPage (user w) (todos w) (newTodo w) (newTodoStatus w).

(** The handler an intent invokes on a page. *)
Definition handler_on (page : Page) (a : Intent) : Async :=
  match a with
  | AddTodo => addTodo (p_user page) (p_newTodo page) (p_newTodoStatus page)
  | ToggleTodo i c => toggleTodo i c
  | UpdateTodoStatus i s => updateTodoStatus (p_todos page) i s
  | DeleteTodo i => deleteTodo (p_todos page) i
  | ClearCompleted => clearCompleted (p_todos page)
  end.

(** The handler an intent invokes on the page that shows the current
    state. *)
Definition handler (w : World) (a : Intent) : Async :=
  handler_on (page_of w) a.

(** The bindings of a rendered row, lines 338-382. *)
Definition onCheckedChange (todo : Todo) : Intent :=
  ToggleTodo (id todo) (completed todo).

Definition onValueChange (todo : Todo) (value : TodoStatus) : Intent :=
  UpdateTodoStatus (id todo) value.

Definition onClickDelete (todo : Todo) : Intent :=
  DeleteTodo (id todo).

Fixpoint remove_nth {A : Type} (n : nat) (l : list A) : list A :=
  match l, n with
  | [], _ => []
  | _ :: l', O => l'
  | x :: l', S n' => x :: remove_nth n' l'
  end.

(** One turn of the event loop. *)
Inductive Event : Type :=
| Invoke (a : Intent)                    (* the user acts on the page of the current state *)
| InvokeOn (page : Page) (a : Intent)    (* the user acts on a page rendered earlier *)
| Realtime (payload : Payload)           (* the change stream delivers *)
| Settled (n : nat) (r : Response).      (* the [n]-th awaited request completes *)

Definition step (w : World) (e : Event) : World :=
  match e with
  | Invoke a => run (handler w a) w
  | InvokeOn page a => run (handler_on page a) w
  | Realtime payload => run (on_postgres_changes payload) w
  | Settled n r =>
      match nth_error (pending w) n with
      | Some k =>
          run (k r)
            (mkWorld (user w) (todos w) (newTodo w) (newTodoStatus w)
               (remove_nth n (pending w)) (log w))
      | None => w
      end
  end.

Definition exec (w : World) (events : list Event) : World :=
  fold_left step events w.

(** The effects of the last turn. *)
Definition fresh_effects (w : World) (e : Event) : list Effect :=
  skipn (length (log w)) (log (step w e)).

(** No remote write is issued ahead of the first cache mutation. *)
Fixpoint mutation_precedes_write (effects : list Effect) : bool :=
  match effects with
  | [] => true
  | Mutated _ _ :: _ => true
  | Issued _ :: _ => false
  | Logged _ :: rest => mutation_precedes_write rest
  end.

(** At most one entry per identifier. *)
Definition unique_ids (cache : list Todo) : Prop := NoDup (map id cache).

(** [whole] interleaves [left] and [right], keeping the order of each. *)
Inductive Merge {A : Type} : list A -> list A -> list A -> Prop :=
| merge_nil : Merge [] [] []
| merge_left x l r w : Merge l r w -> Merge (x :: l) r (x :: w)
| merge_right x l r w : Merge l r w -> Merge l (x :: r) (x :: w).

(** ** Configuration gate ([lib/supabase.ts], [AppContent]) *)

Module Config.

(** A value of [import.meta.env]: [undefined] or a string. *)
Definition EnvValue : Type := option string.

(** JavaScript truthiness of such a value. *)
Definition truthy (v : EnvValue) : bool :=
  match v with
  | Some s => negb (s =? "")
  | None => false
  end.

(** [a && b] *)
Definition js_and (a b : EnvValue) : EnvValue :=
  if truthy a then b else a.

(** Line 8 of [supabase.ts]. *)
Definition hasSupabaseConfig (supabaseUrl supabaseAnonKey : EnvValue) : bool :=
  negb (negb (truthy (js_and supabaseUrl supabaseAnonKey))).

Inductive View : Type :=
| ConfigurationError
| LoadingView
| AuthModal
| TodoApp.

(** Lines 422-465 of [App.tsx]. *)
Definition AppContent (hasSupabaseConfig loading : bool)
    (user : option User) : View :=
  if negb hasSupabaseConfig then ConfigurationError
  else if loading then LoadingView
  else match user with
       | None => AuthModal
       | Some _ => TodoApp
       end.

(** What the application renders for a given environment. *)
Definition render (supabaseUrl supabaseAnonKey : EnvValue) (loading : bool)
    (user : option User) : View :=
  AppContent (hasSupabaseConfig supabaseUrl supabaseAnonKey) loading user.

End Config.

(** No entry of [cache] carries the identifier [i]. *)
Definition absent (i : string) (cache : list Todo) : Prop :=
  forall t, In t cache -> id t <> i.

(** The store after an intent whose remote write fails. *)
Definition after_failure (w : World) (a : Intent) (e : PostgrestError)
  : list Todo :=
  todos (exec w [Invoke a; Settled (length (pending w)) (Failed e)]).

(** The store after an intent issued on [page] whose remote write fails. *)
Definition after_failure_on (w : World) (page : Page) (a : Intent)
    (e : PostgrestError) : list Todo :=
  todos (exec w [InvokeOn page a; Settled (length (pending w)) (Failed e)]).

(** A signed-in page showing the rows [l] and an empty add form. *)
Definition page_showing (l : list Todo) : Page :=
  mkPage (Some (mkUser "u1")) l "" status_todo.

(** The flag an intent carries is the flag of the rows it names, as it is
    for an intent built by [onCheckedChange] from a rendered row. *)
Definition flag_matches (w : World) (a : Intent) : Prop :=
  match a with
  | ToggleTodo i c => forall t, In t (todos w) -> id t = i -> completed t = c
  | _ => True
  end.

(** [t'] is [t] up to the completed flag. *)
Definition same_but_completed (t t' : Todo) : Prop :=
  id t' = id t /\ user_id t' = user_id t /\ text t' = text t /\
  status t' = status t /\ created_at t' = created_at t /\
  updated_at t' = updated_at t.

(** [t'] is [t] up to the status. *)
Definition same_but_status (t t' : Todo) : Prop :=
  id t' = id t /\ user_id t' = user_id t /\ text t' = text t /\
  completed t' = completed t /\ created_at t' = created_at t /\
  updated_at t' = updated_at t.

(** ** Sample states *)

(** U+00A0 (no-break space) and U+3000 (ideographic space) in UTF-8. *)
Definition nbsp : string :=
  String (ascii_of_nat 194) (String (ascii_of_nat 160) EmptyString).

Definition ideographic_space : string :=
  String (ascii_of_nat 227)
    (String (ascii_of_nat 128) (String (ascii_of_nat 128) EmptyString)).

(** A signed-in user who typed a task and has an empty list. *)
Definition w_milk : World :=
  mkWorld (Some (mkUser "u1")) [] "Buy milk" status_todo [] [].

Definition milk : Todo :=
  mkTodo "t1" "u1" "Buy milk" false status_todo "09:00" "09:00".

Definition eggs : Todo :=
  mkTodo "t2" "u1" "Buy eggs" true status_done "09:05" "09:07".

Definition bread : Todo :=
  mkTodo "t3" "u1" "Buy bread" true status_in_progress "09:10" "09:12".

(** ** What [TodoApp] renders (lines 205-220 and 222-411) *)

Module Render.

(** Lines 211-212. *)
Definition completedCount (todos : list Todo) : nat :=
  length (filter (fun t => completed t) todos).

Definition totalCount (todos : list Todo) : nat := length todos.

(** An entry of [statusOptions], lines 22-26. *)
Record StatusOption : Type := mkOption {
  value : TodoStatus;
  label : string;
  color : string
}.

Definition statusOptions : list StatusOption :=
  [ mkOption status_todo "To Do" "bg-gray-500";
    mkOption status_in_progress "In Progress" "bg-blue-500";
    mkOption status_done "Done" "bg-green-500" ].

(** [a === b] on statuses. *)
Definition status_eqb (a b : TodoStatus) : bool :=
  match a, b with
  | status_todo, status_todo => true
  | status_in_progress, status_in_progress => true
  | status_done, status_done => true
  | _, _ => false
  end.

(** The string a status is. *)
Definition status_value (s : TodoStatus) : string :=
  match s with
  | status_todo => "todo"
  | status_in_progress => "in-progress"
  | status_done => "done"
  end.

(** [v || fallback] on strings: the empty string is falsy. *)
Definition or_else (v fallback : string) : string :=
  if v =? "" then fallback else v.

(** Lines 214-216. *)
Definition getStatusColor (status : TodoStatus) : string :=
  match find (fun opt => status_eqb (value opt) status) statusOptions with
  | Some opt => or_else (color opt) "bg-gray-500"
  | None => "bg-gray-500"
  end.

(** Lines 218-220. *)
Definition getStatusLabel (status : TodoStatus) : string :=
  match find (fun opt => status_eqb (value opt) status) statusOptions with
  | Some opt => or_else (label opt) (status_value status)
  | None => status_value status
  end.

(** [disabled={!newTodo.trim()}], line 315. *)
Definition addDisabled (newTodo : string) : bool := trim newTodo =? "".

(** [todos.length === 0], line 323: the empty-list notice is shown. *)
Definition showsEmptyList (todos : list Todo) : bool :=
  (length todos =? 0)%nat.

(** [totalCount > 0], line 271: the progress bar is shown. *)
Definition showsProgress (todos : list Todo) : bool :=
  (0 <? totalCount todos)%nat.

(** [completedCount > 0], line 389: the clear button is shown. *)
Definition showsClearCompleted (todos : list Todo) : bool :=
  (0 <? completedCount todos)%nat.

(** Lines 205-209: only the Enter key submits. *)
Definition handleKeyPress (w : World) (key : string) : World :=
  if key =? "Enter" then step w (Invoke AddTodo) else w.

End Render.

(** ** The initial fetch (lines 36-53) *)

Module Fetch.

(** The [{ data, error }] of [select('*')]. *)
Record SelectResponse : Type := mkSelect {
  data : option (list Todo);
  error : option PostgrestError
}.

(** The part of the state of [TodoApp] the fetch writes, and the console. *)
Record State : Type := mkState {
  cache : list Todo;
  loading : bool;
  console : list string
}.

(** [useState([])], [useState(true)]. *)
Definition initial : State := mkState [] true [].

(** The body of [fetchTodos] after its [await]. *)
Definition fetchTodos (r : SelectResponse) (s : State) : State :=
  let s1 :=
    match error r with
    | Some _ =>
        mkState (cache s) (loading s) (console s ++ ["Error fetching todos:"])
    | None =>
        mkState (match data r with Some d => d | None => [] end)
                (loading s) (console s)
    end in
  mkState (cache s1) false (console s1).

(** Line 37: the effect fetches and subscribes only for a signed-in user. *)
Definition effect_runs (user : option User) : bool :=
  match user with
  | Some _ => true
  | None => false
  end.

(** Lines 222-228: the loading screen hides the list. *)
Definition showsLoading (s : State) : bool := loading s.

End Fetch.

(** ** The client ([lib/supabase.ts], lines 14-17) *)

Module Client.

(** The two arguments [createClient] is called with. *)
Definition supabase (supabaseUrl supabaseAnonKey : Config.EnvValue)
  : Config.EnvValue * Config.EnvValue :=
  if Config.hasSupabaseConfig supabaseUrl supabaseAnonKey
  then (supabaseUrl, supabaseAnonKey)
  else (Some "https://placeholder.supabase.co", Some "placeholder-key").

End Client.

(** ** The list before the backend ([App.tsx] with local state only) *)

Module Legacy.

Record Todo : Type := mkTodo {
  id : string;
  text : string;
  completed : bool;
  createdAt : nat
}.

(** The state of [App]. *)
Record State : Type := mkState {
  todos : list Todo;
  newTodo : string
}.

(** [addTodo]; [uuid] is [crypto.randomUUID()] and [now] is [new Date()]. *)
Definition addTodo (uuid : string) (now : nat) (s : State) : State :=
  if trim (newTodo s) =? "" then s
  else mkState (mkTodo uuid (trim (newTodo s)) false now :: todos s) "".

Definition toggleTodo (i : string) (s : State) : State :=
  mkState
    (map (fun todo =>
            if id todo =? i
            then mkTodo (id todo) (text todo) (negb (completed todo))
                        (createdAt todo)
            else todo)
         (todos s))
    (newTodo s).

Definition deleteTodo (i : string) (s : State) : State :=
  mkState (filter (fun todo => negb (id todo =? i)) (todos s)) (newTodo s).

(** The click handler of the clear button. *)
Definition clearCompleted (s : State) : State :=
  mkState (filter (fun t => negb (completed t)) (todos s)) (newTodo s).

End Legacy.

(** ** Proof tools *)

Ltac by_id t i := destruct (String.eqb_spec (id t) i) as [?Heq | ?Hne].

(** Runs the synchronous part of the intent that opens a schedule. *)
Ltac first_turn :=
  unfold exec; cbn [fold_left];
  match goal with
  | |- context [step ?w0 (Invoke ?a)] =>
      change (step w0 (Invoke a)) with (run (handler w0 a) w0)
  | |- context [step ?w0 (InvokeOn ?p ?a)] =>
      change (step w0 (InvokeOn p a)) with (run (handler_on p a) w0)
  end;
  cbn [handler handler_on page_of p_user p_todos p_newTodo p_newTodoStatus
       toggleTodo updateTodoStatus deleteTodo clearCompleted run
       user todos newTodo newTodoStatus pending log].

(** * Properties *)

(** ** Identifiers under the updaters *)

Section Identifiers.

Lemma absent_cons i t l : absent i (t :: l) <-> id t <> i /\ absent i l.
Proof.
  unfold absent; split.
  - intros H; split; [apply H; now left | intros u Hu; apply H; now right].
  - intros [Ht Hl] u [<- | Hu]; auto.
Qed.

Lemma absent_not_in i l : absent i l <-> ~ In i (map id l).
Proof.
  unfold absent; rewrite in_map_iff; split.
  - intros H (t & Ht & Hin); exact (H t Hin Ht).
  - intros H t Hin Ht; apply H; now exists t.
Qed.

Lemma existsb_absent i l :
  existsb (fun todo => id todo =? i) l = false <-> absent i l.
Proof.
  induction l as [| t l IH]; simpl.
  - split; [intros _ u [] | reflexivity].
  - rewrite absent_cons, orb_false_iff, IH, String.eqb_neq; tauto.
Qed.

Lemma ids_set_completed i c l : map id (Updater.set_completed i c l) = map id l.
Proof.
  unfold Updater.set_completed; rewrite map_map; apply map_ext.
  intros t; by_id t i; reflexivity.
Qed.

Lemma ids_set_status i s l : map id (Updater.set_status i s l) = map id l.
Proof.
  unfold Updater.set_status; rewrite map_map; apply map_ext.
  intros t; by_id t i; reflexivity.
Qed.

Lemma ids_on_update new l : map id (Updater.on_update new l) = map id l.
Proof.
  unfold Updater.on_update; rewrite map_map; apply map_ext.
  intros t; by_id t (id new); congruence.
Qed.

Lemma set_completed_absent i c l : absent i l -> Updater.set_completed i c l = l.
Proof.
  induction l as [| t l IH]; simpl; [reflexivity |].
  rewrite absent_cons; intros [Ht Hl].
  apply String.eqb_neq in Ht; rewrite Ht; f_equal; auto.
Qed.

Lemma set_status_absent i s l : absent i l -> Updater.set_status i s l = l.
Proof.
  induction l as [| t l IH]; simpl; [reflexivity |].
  rewrite absent_cons; intros [Ht Hl].
  apply String.eqb_neq in Ht; rewrite Ht; f_equal; auto.
Qed.

Lemma remove_absent i l : absent i l -> Updater.remove i l = l.
Proof.
  induction l as [| t l IH]; simpl; [reflexivity |].
  rewrite absent_cons; intros [Ht Hl].
  apply String.eqb_neq in Ht; rewrite Ht; simpl; f_equal; auto.
Qed.

Lemma find_absent i l : absent i l -> find (fun t => id t =? i) l = None.
Proof.
  induction l as [| t l IH]; simpl; [reflexivity |].
  rewrite absent_cons; intros [Ht Hl].
  apply String.eqb_neq in Ht; rewrite Ht; auto.
Qed.

Lemma remove_is_absent i l : absent i (Updater.remove i l).
Proof.
  intros t Hin; apply filter_In in Hin as [_ Hb].
  apply negb_true_iff, String.eqb_neq in Hb; exact Hb.
Qed.

Lemma ids_filter_incl (p : Todo -> bool) l x :
  In x (map id (filter p l)) -> In x (map id l).
Proof.
  rewrite !in_map_iff; intros (t & Ht & Hin).
  apply filter_In in Hin as [Hin _]; now exists t.
Qed.

Lemma unique_ids_filter (p : Todo -> bool) l :
  unique_ids l -> unique_ids (filter p l).
Proof.
  unfold unique_ids; induction l as [| t l IH]; simpl; [auto |].
  intros H; inversion_clear H as [| ? ? Hnotin Hnd].
  destruct (p t); simpl; auto.
  constructor; auto.
  intros Hin; apply Hnotin; eapply ids_filter_incl; eauto.
Qed.

Lemma unique_ids_on_insert new l :
  unique_ids l -> unique_ids (Updater.on_insert new l).
Proof.
  unfold Updater.on_insert; intros H.
  destruct (existsb _ l) eqn:E; [exact H |].
  apply existsb_absent, absent_not_in in E.
  unfold unique_ids; simpl; now constructor.
Qed.

Lemma unique_ids_on_update new l :
  unique_ids l -> unique_ids (Updater.on_update new l).
Proof. unfold unique_ids; now rewrite ids_on_update. Qed.

Lemma unique_ids_on_delete i l :
  unique_ids l -> unique_ids (Updater.on_delete i l).
Proof. apply unique_ids_filter. Qed.

Lemma unique_ids_set_completed i c l :
  unique_ids l -> unique_ids (Updater.set_completed i c l).
Proof. unfold unique_ids; now rewrite ids_set_completed. Qed.

Lemma unique_ids_set_status i s l :
  unique_ids l -> unique_ids (Updater.set_status i s l).
Proof. unfold unique_ids; now rewrite ids_set_status. Qed.

Lemma unique_ids_remove i l : unique_ids l -> unique_ids (Updater.remove i l).
Proof. apply unique_ids_filter. Qed.

Lemma unique_ids_clear l : unique_ids l -> unique_ids (Updater.clear l).
Proof. apply unique_ids_filter. Qed.

Lemma unique_ids_cons t l : unique_ids (t :: l) <-> absent (id t) l /\ unique_ids l.
Proof.
  unfold unique_ids; simpl; rewrite absent_not_in; split.
  - intros H; inversion H; auto.
  - intros [? ?]; now constructor.
Qed.

End Identifiers.

(** ** Reverting a field *)

Section Reverts.

Lemma with_completed_same t : with_completed (completed t) t = t.
Proof. now destruct t. Qed.

Lemma with_status_same t : with_status (status t) t = t.
Proof. now destruct t. Qed.

Lemma with_completed_twice c c' t :
  with_completed c (with_completed c' t) = with_completed c t.
Proof. reflexivity. Qed.

Lemma with_status_twice s s' t :
  with_status s (with_status s' t) = with_status s t.
Proof. reflexivity. Qed.

Lemma set_completed_revert i c c' l :
  (forall t, In t l -> id t = i -> completed t = c) ->
  Updater.set_completed i c (Updater.set_completed i c' l) = l.
Proof.
  induction l as [| t l IH]; simpl; intros H; [reflexivity |].
  rewrite IH by (intros u Hu; apply H; now right).
  f_equal.
  by_id t i.
  - subst i. cbn [id with_completed].
    rewrite String.eqb_refl, with_completed_twice.
    rewrite <- (H t (or_introl eq_refl) eq_refl).
    apply with_completed_same.
  - apply String.eqb_neq in Hne; now rewrite Hne.
Qed.

Lemma set_status_revert i old s l :
  (forall t, In t l -> id t = i -> status t = old) ->
  Updater.set_status i old (Updater.set_status i s l) = l.
Proof.
  induction l as [| t l IH]; simpl; intros H; [reflexivity |].
  rewrite IH by (intros u Hu; apply H; now right).
  f_equal.
  by_id t i.
  - subst i. cbn [id with_status].
    rewrite String.eqb_refl, with_status_twice.
    rewrite <- (H t (or_introl eq_refl) eq_refl).
    apply with_status_same.
  - apply String.eqb_neq in Hne; now rewrite Hne.
Qed.

(** Under unique identifiers [find] returns the only candidate. *)
Lemma find_unique i l d :
  unique_ids l ->
  find (fun t => id t =? i) l = Some d ->
  forall t, In t l -> id t = i -> t = d.
Proof.
  induction l as [| u l IH]; simpl; [discriminate |].
  intros Hu Hfind t Hin Ht.
  apply unique_ids_cons in Hu as [Habs Hu].
  by_id u i.
  - injection Hfind as <-.
    destruct Hin as [-> | Hin]; [reflexivity |].
    exfalso; apply (Habs t Hin); congruence.
  - destruct Hin as [<- | Hin]; [contradiction |].
    eapply IH; eauto.
Qed.

Lemma find_some_in i l d :
  find (fun t => id t =? i) l = Some d -> In d l /\ id d = i.
Proof.
  intros H; apply find_some in H as [Hin Hb].
  now apply String.eqb_eq in Hb.
Qed.

(** The rows a delete removes, under unique identifiers. *)
Lemma filter_id_unique i l :
  unique_ids l ->
  filter (fun t => id t =? i) l =
    match find (fun t => id t =? i) l with
    | Some d => [d]
    | None => []
    end.
Proof.
  induction l as [| u l IH]; simpl; [reflexivity |].
  intros Hu; apply unique_ids_cons in Hu as [Habs Hu].
  by_id u i.
  - f_equal. subst i.
    rewrite IH by assumption.
    now rewrite (find_absent _ _ Habs).
  - now apply IH.
Qed.

Lemma filter_split_perm (p : Todo -> bool) l :
  Permutation (filter p l ++ filter (fun t => negb (p t)) l) l.
Proof.
  induction l as [| t l IH]; simpl; [constructor |].
  destruct (p t); simpl.
  - now constructor.
  - symmetry; apply Permutation_cons_app; now symmetry.
Qed.

End Reverts.

(** ** Turns of the event loop *)

Section Loop.

Lemma nth_error_last {A} (l : list A) (k : A) :
  nth_error (l ++ [k]) (length l) = Some k.
Proof. induction l; simpl; auto. Qed.

Lemma remove_nth_last {A} (l : list A) (k : A) :
  remove_nth (length l) (l ++ [k]) = l.
Proof. induction l; simpl; [reflexivity | now f_equal]. Qed.

(** Completing the request that was issued last resumes its handler. *)
Lemma settle_last u ts nt ns l k lg r :
  step (mkWorld u ts nt ns (l ++ [k]) lg) (Settled (length l) r) =
  run (k r) (mkWorld u ts nt ns l lg).
Proof.
  unfold step; cbn [pending].
  now rewrite nth_error_last, remove_nth_last.
Qed.

(** Completing a request that was never issued does nothing. *)
Lemma settle_nothing w r :
  todos (step w (Settled (length (pending w)) r)) = todos w.
Proof.
  unfold step.
  destruct (nth_error (pending w) (length (pending w))) eqn:E; [| reflexivity].
  assert (length (pending w) < length (pending w)); [| lia].
  apply nth_error_Some; congruence.
Qed.

Lemma settle_unissued_log w r :
  log (step w (Settled (length (pending w)) r)) = log w.
Proof.
  unfold step.
  destruct (nth_error (pending w) (length (pending w))) eqn:E; [| reflexivity].
  assert (length (pending w) < length (pending w)); [| lia].
  apply nth_error_Some; congruence.
Qed.

Lemma skipn_fresh {A} (l x : list A) : skipn (length l) (l ++ x) = x.
Proof. induction l; simpl; auto. Qed.

Lemma toggle_failed w i c e :
  after_failure w (ToggleTodo i c) e =
  Updater.set_completed i c (Updater.set_completed i (negb c) (todos w)).
Proof.
  unfold after_failure; first_turn.
  now rewrite settle_last.
Qed.

Lemma status_failed w i s e :
  after_failure w (UpdateTodoStatus i s) e =
  match find (fun t => id t =? i) (todos w) with
  | Some d => Updater.set_status i (status d) (Updater.set_status i s (todos w))
  | None => Updater.set_status i s (todos w)
  end.
Proof.
  unfold after_failure; first_turn.
  rewrite settle_last; cbn [error_of run todos].
  now destruct (find _ (todos w)).
Qed.

Lemma delete_failed w i e :
  after_failure w (DeleteTodo i) e =
  match find (fun t => id t =? i) (todos w) with
  | Some d => d :: Updater.remove i (todos w)
  | None => Updater.remove i (todos w)
  end.
Proof.
  unfold after_failure; first_turn.
  rewrite settle_last; cbn [error_of run todos].
  now destruct (find _ (todos w)).
Qed.

Lemma clear_failed w e :
  after_failure w ClearCompleted e =
  filter (fun t => completed t) (todos w) ++ Updater.clear (todos w).
Proof.
  unfold after_failure; first_turn.
  now rewrite settle_last.
Qed.

Lemma realtime_turn w payload :
  step w (Realtime payload) = run (on_postgres_changes payload) w.
Proof. reflexivity. Qed.

(** The synchronous part of [addTodo] leaves the store alone. *)
Lemma add_turn_keeps_store w : todos (step w (Invoke AddTodo)) = todos w.
Proof.
  change (step w (Invoke AddTodo)) with (run (handler w AddTodo) w).
  cbn [handler handler_on page_of p_user p_todos p_newTodo p_newTodoStatus]; unfold addTodo.
  destruct (user w); [destruct (trim (newTodo w) =? "") |]; reflexivity.
Qed.

Lemma add_failed w e : after_failure w AddTodo e = todos w.
Proof.
  unfold after_failure, exec; cbn [fold_left].
  change (step w (Invoke AddTodo)) with (run (handler w AddTodo) w).
  cbn [handler handler_on page_of p_user p_todos p_newTodo p_newTodoStatus]; unfold addTodo.
  destruct (user w) as [u |]; cbn [run].
  - destruct (trim (newTodo w) =? ""); cbn [run].
    + apply settle_nothing.
    + now rewrite settle_last.
  - apply settle_nothing.
Qed.

(** The same on any page: the rows a handler captured are those of its
    page, the rows its updaters see are those of the store. *)
Lemma toggle_failed_on w page i c e :
  after_failure_on w page (ToggleTodo i c) e =
  Updater.set_completed i c (Updater.set_completed i (negb c) (todos w)).
Proof.
  unfold after_failure_on; first_turn.
  now rewrite settle_last.
Qed.

Lemma status_failed_on w page i s e :
  after_failure_on w page (UpdateTodoStatus i s) e =
  match find (fun t => id t =? i) (p_todos page) with
  | Some d => Updater.set_status i (status d) (Updater.set_status i s (todos w))
  | None => Updater.set_status i s (todos w)
  end.
Proof.
  unfold after_failure_on; first_turn.
  rewrite settle_last; cbn [error_of run todos].
  now destruct (find _ (p_todos page)).
Qed.

Lemma delete_failed_on w page i e :
  after_failure_on w page (DeleteTodo i) e =
  match find (fun t => id t =? i) (p_todos page) with
  | Some d => d :: Updater.remove i (todos w)
  | None => Updater.remove i (todos w)
  end.
Proof.
  unfold after_failure_on; first_turn.
  rewrite settle_last; cbn [error_of run todos].
  now destruct (find _ (p_todos page)).
Qed.

Lemma clear_failed_on w page e :
  after_failure_on w page ClearCompleted e =
  filter (fun t => completed t) (p_todos page) ++ Updater.clear (todos w).
Proof.
  unfold after_failure_on; first_turn.
  now rewrite settle_last.
Qed.

Lemma add_failed_on w page e : after_failure_on w page AddTodo e = todos w.
Proof.
  unfold after_failure_on, exec; cbn [fold_left].
  change (step w (InvokeOn page AddTodo)) with (run (handler_on page AddTodo) w).
  cbn [handler_on]; unfold addTodo.
  destruct (p_user page) as [u |]; cbn [run].
  - destruct (trim (p_newTodo page) =? ""); cbn [run].
    + apply settle_nothing.
    + now rewrite settle_last.
  - apply settle_nothing.
Qed.

End Loop.

(** ** Order of the local mutation and the remote write *)

(** As a statement about every intent the order fails: [addTodo] issues
    its insert before any cache mutation; with "Buy milk" typed by a
    signed-in user the turn consists of the remote write alone. *)
Lemma C1_create_issues_write_first :
  ~ (forall w a, mutation_precedes_write (fresh_effects w (Invoke a)) = true).
Proof.
  intros H; specialize (H w_milk AddTodo); vm_compute in H; discriminate.
Qed.

(** C1: with "Buy milk" typed by a signed-in user and an empty cache,
    [addTodo] issues its insert as the first and only effect of its turn:
    the cache is still empty when the write leaves.  The row enters the
    cache when the insert has succeeded and never when it has failed.  A
    toggle issued on a page showing that row mutates the cache before it
    writes. *)
Theorem C1_create_writes_before_cache :
  fresh_effects w_milk (Invoke AddTodo) =
    [Issued (QInsert (mkInsertRow "u1" "Buy milk" false status_todo))] /\
  mutation_precedes_write (fresh_effects w_milk (Invoke AddTodo)) = false /\
  todos (step w_milk (Invoke AddTodo)) = [] /\
  todos (exec w_milk [Invoke AddTodo; Settled 0 (Row milk)]) = [milk] /\
  todos (exec w_milk [Invoke AddTodo; Settled 0 (Failed "network")]) = [] /\
  mutation_precedes_write
    (fresh_effects (mkWorld (Some (mkUser "u1")) [milk] "" status_todo [] [])
       (Invoke (onCheckedChange milk))) = true.
Proof. repeat split. Qed.

(** X28: The effects of the first turn of each handler, on any page.  Toggle,
    set-status, delete and bulk-clear mutate the cache first and issue
    their write second.  Create issues its insert, if any, without touching
    the cache; the confirmed row is prepended when the insert succeeds and
    the cache is left as it was when the insert fails. *)
Theorem effect_order_of_handlers (w : World) (page : Page) (a : Intent) :
  match a with
  | AddTodo =>
      let submitted :=
        match p_user page with
        | Some u =>
            if trim (p_newTodo page) =? "" then None
            else Some (mkInsertRow (uid u) (trim (p_newTodo page)) false
                         (p_newTodoStatus page))
        | None => None
        end in
      todos (step w (InvokeOn page AddTodo)) = todos w /\
      fresh_effects w (InvokeOn page AddTodo) =
        match submitted with
        | Some row => [Issued (QInsert row)]
        | None => []
        end /\
      (forall data,
         todos (exec w [InvokeOn page AddTodo;
                        Settled (length (pending w)) (Row data)]) =
         match submitted with
         | Some _ => data :: todos w
         | None => todos w
         end) /\
      (forall e,
         todos (exec w [InvokeOn page AddTodo;
                        Settled (length (pending w)) (Failed e)]) = todos w /\
         forall b b',
           ~ In (Mutated b b')
               (skipn (length (log w))
                  (log (exec w [InvokeOn page AddTodo;
                                Settled (length (pending w)) (Failed e)]))))
  | _ =>
      exists q,
        fresh_effects w (InvokeOn page a) =
          [Mutated (todos w) (todos (step w (InvokeOn page a))); Issued q] /\
        mutation_precedes_write (fresh_effects w (InvokeOn page a)) = true
  end.
Proof.
  destruct a as [| i c | i s | i |].
  - cbn zeta. unfold fresh_effects, exec; cbn [fold_left].
    change (step w (InvokeOn page AddTodo))
      with (run (handler_on page AddTodo) w).
    cbn [handler_on]; unfold addTodo.
    destruct (p_user page) as [u |];
      [destruct (trim (p_newTodo page) =? "") |]; cbn [run todos log].
    + repeat split; try apply skipn_all; try (intros; apply settle_nothing).
      intros b b'; rewrite settle_unissued_log, skipn_all; intros [].
    + repeat split; try apply skipn_fresh.
      * intros data; now rewrite settle_last.
      * now rewrite settle_last.
      * intros b b'; rewrite settle_last; cbn [run log].
        rewrite <- app_assoc, skipn_fresh.
        intros [H | [H | []]]; discriminate H.
    + repeat split; try apply skipn_all; try (intros; apply settle_nothing).
      intros b b'; rewrite settle_unissued_log, skipn_all; intros [].
  - eexists; unfold fresh_effects; first_turn.
    rewrite <- app_assoc, skipn_fresh; split; reflexivity.
  - eexists; unfold fresh_effects; first_turn.
    rewrite <- app_assoc, skipn_fresh; split; reflexivity.
  - eexists; unfold fresh_effects; first_turn.
    rewrite <- app_assoc, skipn_fresh; split; reflexivity.
  - eexists; unfold fresh_effects; first_turn.
    rewrite <- app_assoc, skipn_fresh; split; reflexivity.
Qed.

(** ** Uniqueness of identifiers under interleaving *)

(** Every payload of the change stream keeps identifiers unique. *)
Lemma unique_ids_realtime w payload :
  unique_ids (todos w) -> unique_ids (todos (step w (Realtime payload))).
Proof.
  intros Hu; rewrite realtime_turn.
  destruct payload; cbn [on_postgres_changes run todos].
  - now apply unique_ids_on_insert.
  - now apply unique_ids_on_update.
  - now apply unique_ids_on_delete.
Qed.

(** So does the synchronous part of every intent. *)
Lemma unique_ids_invoke w a :
  unique_ids (todos w) -> unique_ids (todos (step w (Invoke a))).
Proof.
  intros Hu; destruct a as [| i c | i s | i |].
  - now rewrite add_turn_keeps_store.
  - first_turn; now apply unique_ids_set_completed.
  - first_turn; now apply unique_ids_set_status.
  - first_turn; now apply unique_ids_remove.
  - first_turn; now apply unique_ids_clear.
Qed.

(** C2: the success callback of [addTodo] prepends the confirmed row without
    looking for its identifier.  When the change stream delivers the INSERT
    of that row before the insert request completes, the cache holds the row
    twice; in the other order the INSERT handler drops the second copy. *)
Theorem C2_duplicate_when_stream_precedes_callback :
  unique_ids (todos w_milk) /\
  todos (exec w_milk [Invoke AddTodo; Realtime (INSERT milk); Settled 0 (Row milk)])
    = [milk; milk] /\
  ~ unique_ids
      (todos (exec w_milk
                [Invoke AddTodo; Realtime (INSERT milk); Settled 0 (Row milk)])) /\
  todos (exec w_milk [Invoke AddTodo; Settled 0 (Row milk); Realtime (INSERT milk)])
    = [milk].
Proof.
  split; [constructor |].
  split; [reflexivity |].
  split; [| reflexivity].
  change (todos _) with [milk; milk].
  intros H; inversion H as [| ? ? Hnotin _]; apply Hnotin; now left.
Qed.

(** ** Rollback after a failed write *)

(** C3, as stated, fails for delete: with the cache [milk; eggs], deleting
    [eggs] and failing leaves [eggs; milk]. *)
Lemma C3_delete_rollback_moves_record :
  ~ (forall w a e,
        unique_ids (todos w) -> flag_matches w a ->
        after_failure w a e = todos w).
Proof.
  intros H.
  specialize (H (mkWorld (Some (mkUser "u1")) [milk; eggs] "" status_todo [] [])
                (DeleteTodo "t2") "network").
  assert (Hu : unique_ids [milk; eggs]).
  { repeat constructor; simpl; intuition discriminate. }
  specialize (H Hu I); vm_compute in H; discriminate.
Qed.

(** C3, amended: after a failed write the cache holds the rows it held
    before the action.  A failed create leaves the cache as it was, and so
    does a failed toggle issued with the flag of the row.  On a page that
    shows the current cache, a failed set-status gives the cache back when
    identifiers are unique; a failed delete (identifiers unique) and a
    failed bulk-clear bring the removed rows back at the front, followed by
    the rows that stayed, each group in its former order. *)
Theorem C3_rollback (w : World) (page : Page) (a : Intent) (e : PostgrestError) :
  match a with
  | AddTodo => after_failure_on w page a e = todos w
  | ToggleTodo _ _ =>
      flag_matches w a -> after_failure_on w page a e = todos w
  | UpdateTodoStatus _ _ =>
      p_todos page = todos w -> unique_ids (todos w) ->
      after_failure_on w page a e = todos w
  | DeleteTodo i =>
      p_todos page = todos w -> unique_ids (todos w) ->
      after_failure_on w page a e =
        filter (fun t => id t =? i) (todos w) ++
        filter (fun t => negb (id t =? i)) (todos w) /\
      Permutation (after_failure_on w page a e) (todos w)
  | ClearCompleted =>
      p_todos page = todos w ->
      after_failure_on w page a e =
        filter (fun t => completed t) (todos w) ++
        filter (fun t => negb (completed t)) (todos w) /\
      Permutation (after_failure_on w page a e) (todos w)
  end.
Proof.
  destruct a as [| i c | i s | i |].
  - apply add_failed_on.
  - intros Hflag; rewrite toggle_failed_on; now apply set_completed_revert.
  - intros Hpage Hu; rewrite status_failed_on, Hpage.
    destruct (find _ (todos w)) as [d |] eqn:Hfind.
    + apply set_status_revert; intros t Hin Ht.
      f_equal; eapply find_unique; eauto.
    + apply set_status_absent.
      intros t Hin Ht.
      apply (find_none _ _ Hfind) in Hin.
      apply String.eqb_neq in Hin; contradiction.
  - intros Hpage Hu.
    assert (Hshape : after_failure_on w page (DeleteTodo i) e =
              filter (fun t => id t =? i) (todos w) ++
              filter (fun t => negb (id t =? i)) (todos w)).
    { rewrite delete_failed_on, Hpage, (filter_id_unique i _ Hu).
      now destruct (find _ (todos w)). }
    split; [exact Hshape |].
    rewrite Hshape; apply filter_split_perm.
  - intros Hpage.
    assert (Hshape : after_failure_on w page ClearCompleted e =
              filter (fun t => completed t) (todos w) ++
              filter (fun t => negb (completed t)) (todos w)).
    { now rewrite clear_failed_on, Hpage. }
    split; [exact Hshape |].
    rewrite Hshape; apply filter_split_perm.
Qed.

(** C3 at the cache [milk; eggs; bread], shown by the page: a failed
    bulk-clear brings the two completed rows back ahead of [milk], and a
    failed delete of [eggs] brings it back ahead of the others. *)
Lemma C3_rollback_witness :
  (after_failure_on (mkWorld None [milk; eggs; bread] "" status_todo [] [])
     (page_showing [milk; eggs; bread]) ClearCompleted "network"
   = [eggs; bread; milk] /\
   Permutation [eggs; bread; milk] [milk; eggs; bread]) /\
  (after_failure_on (mkWorld None [milk; eggs; bread] "" status_todo [] [])
     (page_showing [milk; eggs; bread]) (DeleteTodo "t2") "network"
   = [eggs; milk; bread] /\
   Permutation [eggs; milk; bread] [milk; eggs; bread]).
Proof.
  assert (Hu : unique_ids [milk; eggs; bread]).
  { repeat constructor; simpl; intuition discriminate. }
  split.
  - exact (C3_rollback (mkWorld None [milk; eggs; bread] "" status_todo [] [])
             (page_showing [milk; eggs; bread]) ClearCompleted "network"
             eq_refl).
  - exact (C3_rollback (mkWorld None [milk; eggs; bread] "" status_todo [] [])
             (page_showing [milk; eggs; bread]) (DeleteTodo "t2") "network"
             eq_refl Hu).
Defined.

(** ** Change-stream handlers *)

Lemma filter_merge {A : Type} (p : A -> bool) (l : list A) :
  Merge (filter (fun x => negb (p x)) l) (filter p l) l.
Proof.
  induction l as [| x l IH]; simpl; [constructor |].
  destruct (p x); simpl; now constructor.
Qed.

(** C4: an INSERT event for an identifier the cache already holds leaves the
    cache as it is; for an identifier the cache does not hold, the incoming
    row is prepended. *)
Theorem C4_insert_idempotent (w : World) (new : Todo) :
  ((exists t, In t (todos w) /\ id t = id new) ->
   todos (step w (Realtime (INSERT new))) = todos w) /\
  (absent (id new) (todos w) ->
   todos (step w (Realtime (INSERT new))) = new :: todos w).
Proof.
  rewrite realtime_turn; cbn [on_postgres_changes run todos].
  unfold Updater.on_insert; split.
  - intros (t & Hin & Ht).
    destruct (existsb _ (todos w)) eqn:E; [reflexivity |].
    apply existsb_absent in E; now apply E in Hin.
  - intros Habs; apply existsb_absent in Habs; now rewrite Habs.
Qed.

(** C4 at the cache [milk]: a second INSERT of [milk] changes nothing, an
    INSERT of [eggs] puts it in front. *)
Lemma C4_insert_idempotent_witness :
  todos (step (mkWorld None [milk] "" status_todo [] []) (Realtime (INSERT milk)))
    = [milk] /\
  todos (step (mkWorld None [milk] "" status_todo [] []) (Realtime (INSERT eggs)))
    = [eggs; milk].
Proof.
  split.
  - apply (proj1 (C4_insert_idempotent
                    (mkWorld None [milk] "" status_todo [] []) milk)).
    exists milk; split; [now left | reflexivity].
  - apply (proj2 (C4_insert_idempotent
                    (mkWorld None [milk] "" status_todo [] []) eggs)).
    intros t [<- | []]; discriminate.
Defined.

(** C5: a DELETE event removes the rows carrying its identifier and keeps
    every other row in place (one row at most goes when identifiers are
    unique); when no row carries the identifier the cache is unchanged.  The
    turn consists of the cache update alone: nothing is logged. *)
Theorem C5_delete_event (w : World) (old_id : string) :
  (exists removed,
      Merge removed (todos (step w (Realtime (DELETE old_id)))) (todos w) /\
      Forall (fun t => id t = old_id) removed /\
      (unique_ids (todos w) -> length removed <= 1)) /\
  absent old_id (todos (step w (Realtime (DELETE old_id)))) /\
  (absent old_id (todos w) ->
   todos (step w (Realtime (DELETE old_id))) = todos w) /\
  fresh_effects w (Realtime (DELETE old_id)) =
    [Mutated (todos w) (todos (step w (Realtime (DELETE old_id))))].
Proof.
  unfold fresh_effects; rewrite realtime_turn.
  cbn [on_postgres_changes run todos log]; unfold Updater.on_delete.
  repeat split.
  - exists (filter (fun t => negb (negb (id t =? old_id))) (todos w)).
    split; [apply filter_merge |]; split.
    + apply Forall_forall; intros t Hin.
      apply filter_In in Hin as [_ Hb].
      rewrite negb_involutive in Hb; now apply String.eqb_eq.
    + intros Hu.
      rewrite (filter_ext _ (fun t => id t =? old_id))
        by (intros; apply negb_involutive).
      rewrite (filter_id_unique _ _ Hu).
      destruct (find _ (todos w)); simpl; lia.
  - apply remove_is_absent.
  - apply remove_absent.
  - apply skipn_fresh.
Qed.

(** C5 at the cache [milk; eggs]: a DELETE for the unknown identifier "t9"
    changes nothing. *)
Lemma C5_delete_event_witness :
  todos (step (mkWorld None [milk; eggs] "" status_todo [] [])
           (Realtime (DELETE "t9"))) = [milk; eggs].
Proof.
  apply (proj1 (proj2 (proj2 (C5_delete_event
           (mkWorld None [milk; eggs] "" status_todo [] []) "t9")))).
  intros t [<- | [<- | []]]; discriminate.
Defined.

(** ** Toggle and status *)

Lemma set_completed_twice i c c' l :
  Updater.set_completed i c (Updater.set_completed i c' l) =
  Updater.set_completed i c l.
Proof.
  unfold Updater.set_completed; rewrite map_map; apply map_ext.
  intros t; by_id t i.
  - cbn [id with_completed]; apply String.eqb_eq in Heq; now rewrite Heq.
  - apply String.eqb_neq in Hne; now rewrite Hne.
Qed.

Lemma set_completed_flag i c l t :
  In t (Updater.set_completed i c l) -> id t = i -> completed t = c.
Proof.
  unfold Updater.set_completed; rewrite in_map_iff.
  intros (u & Hu & _) Ht; revert Hu; by_id u i; intros <-.
  - reflexivity.
  - contradiction.
Qed.

(** C6: when the write of a toggle fails, the toggled row is in the cache
    again with the flag it had, every row carrying its identifier shows that
    flag, and the cache lists the same identifiers as before, so it has no
    duplicate unless it had one. *)
Theorem C6_toggle_rollback (w : World) (t : Todo) (e : PostgrestError) :
  In t (todos w) ->
  In t (after_failure w (onCheckedChange t) e) /\
  (forall t', In t' (after_failure w (onCheckedChange t) e) ->
              id t' = id t -> completed t' = completed t) /\
  map id (after_failure w (onCheckedChange t) e) = map id (todos w) /\
  (unique_ids (todos w) ->
   unique_ids (after_failure w (onCheckedChange t) e) /\
   after_failure w (onCheckedChange t) e = todos w).
Proof.
  intros Hin; unfold onCheckedChange.
  rewrite toggle_failed, set_completed_twice.
  repeat split.
  - apply in_map_iff; exists t; split; [| exact Hin].
    rewrite String.eqb_refl; apply with_completed_same.
  - intros t'; apply set_completed_flag.
  - apply ids_set_completed.
  - now apply unique_ids_set_completed.
  - rewrite <- (set_completed_twice _ _ (negb (completed t))).
    apply set_completed_revert.
    intros u Hu Heq; f_equal.
    destruct (In_nth_error _ _ Hin) as [n Hn].
    destruct (In_nth_error _ _ Hu) as [m Hm].
    assert (Hid : nth_error (map id (todos w)) m = nth_error (map id (todos w)) n).
    { rewrite !nth_error_map, Hn, Hm; simpl; now rewrite Heq. }
    apply NoDup_nth_error in Hid; [congruence | assumption |].
    rewrite length_map; apply nth_error_Some; congruence.
Qed.

(** C6 at the cache [milk; eggs]: toggling [eggs] and failing leaves
    [milk; eggs]. *)
Lemma C6_toggle_rollback_witness :
  In eggs (after_failure (mkWorld None [milk; eggs] "" status_todo [] [])
             (onCheckedChange eggs) "network") /\
  after_failure (mkWorld None [milk; eggs] "" status_todo [] [])
    (onCheckedChange eggs) "network" = [milk; eggs].
Proof.
  assert (Hin : In eggs [milk; eggs]) by (right; now left).
  assert (Hu : unique_ids [milk; eggs]).
  { repeat constructor; simpl; intuition discriminate. }
  pose proof (C6_toggle_rollback
                (mkWorld None [milk; eggs] "" status_todo [] []) eggs
                "network" Hin) as (H1 & _ & _ & H4).
  split; [exact H1 | exact (proj2 (H4 Hu))].
Defined.

(** C7: the optimistic update of a toggle changes nothing but the completed
    flag of the rows carrying the identifier, and the optimistic update of a
    status change nothing but their status; rows with another identifier
    stay as they are, position by position. *)
Theorem C7_fields_independent (w : World) (i : string) (c : bool) (s : TodoStatus) :
  Forall2
    (fun t t' =>
       (id t = i -> same_but_completed t t' /\ completed t' = negb c) /\
       (id t <> i -> t' = t))
    (todos w) (todos (step w (Invoke (ToggleTodo i c)))) /\
  Forall2
    (fun t t' =>
       (id t = i -> same_but_status t t' /\ status t' = s) /\
       (id t <> i -> t' = t))
    (todos w) (todos (step w (Invoke (UpdateTodoStatus i s)))).
Proof.
  split; first_turn.
  - unfold Updater.set_completed.
    induction (todos w) as [| t l IH]; simpl; constructor; [| exact IH].
    by_id t i; split; intros; try contradiction; try reflexivity.
    unfold same_but_completed; cbn; tauto.
  - unfold Updater.set_status.
    induction (todos w) as [| t l IH]; simpl; constructor; [| exact IH].
    by_id t i; split; intros; try contradiction; try reflexivity.
    unfold same_but_status; cbn; tauto.
Qed.

(** ** Bulk clear *)

(** C8: the optimistic update of clear-completed splits the cache into the
    completed rows, which go, and the incomplete rows, which stay in their
    order; the identifiers sent to the backend are those of the rows that
    went. *)
Theorem C8_clear_completed (w : World) :
  exists removed,
    Merge removed (todos (step w (Invoke ClearCompleted))) (todos w) /\
    Forall (fun t => completed t = true) removed /\
    Forall (fun t => completed t = false) (todos (step w (Invoke ClearCompleted))) /\
    fresh_effects w (Invoke ClearCompleted) =
      [Mutated (todos w) (todos (step w (Invoke ClearCompleted)));
       Issued (QDeleteIn (map id removed))].
Proof.
  exists (filter (fun t => completed t) (todos w)).
  unfold fresh_effects; first_turn; unfold Updater.clear.
  repeat split.
  - rewrite (filter_ext (fun t => completed t)
               (fun t => negb (negb (completed t))))
      by (intros; now rewrite negb_involutive).
    apply (filter_merge (fun t => negb (completed t))).
  - apply Forall_forall; intros t Hin; now apply filter_In in Hin.
  - apply Forall_forall; intros t Hin.
    apply filter_In in Hin as [_ Hb]; now apply negb_true_iff.
  - now rewrite <- app_assoc, skipn_fresh.
Qed.

(** The scenario of the specification: three completed rows and two
    incomplete ones. *)
Example clear_three_of_five :
  let a := mkTodo "a" "u1" "A" true status_done "1" "1" in
  let b := mkTodo "b" "u1" "B" false status_todo "2" "2" in
  let c := mkTodo "c" "u1" "C" true status_todo "3" "3" in
  let d := mkTodo "d" "u1" "D" false status_in_progress "4" "4" in
  let f := mkTodo "f" "u1" "F" true status_done "5" "5" in
  todos (step (mkWorld (Some (mkUser "u1")) [a; b; c; d; f] "" status_todo [] [])
           (Invoke ClearCompleted)) = [b; d].
Proof. reflexivity. Qed.

(** ** Configuration gate *)

(** C9: with the base URL or the public key missing from the environment,
    the application renders the configuration error, whatever the session
    state, and so neither the authentication modal nor the todo list. *)
Theorem C9_missing_configuration
    (supabaseUrl supabaseAnonKey : Config.EnvValue) (loading : bool)
    (user : option User) :
  supabaseUrl = None \/ supabaseAnonKey = None ->
  Config.render supabaseUrl supabaseAnonKey loading user = Config.ConfigurationError /\
  Config.render supabaseUrl supabaseAnonKey loading user <> Config.AuthModal /\
  Config.render supabaseUrl supabaseAnonKey loading user <> Config.TodoApp.
Proof.
  intros Hmissing.
  assert (Hcfg : Config.hasSupabaseConfig supabaseUrl supabaseAnonKey = false).
  { unfold Config.hasSupabaseConfig, Config.js_and.
    destruct Hmissing as [-> | ->]; [reflexivity |].
    destruct (Config.truthy supabaseUrl) eqn:E; [reflexivity |].
    now rewrite E. }
  unfold Config.render, Config.AppContent; rewrite Hcfg; cbn.
  repeat split; discriminate.
Qed.

(** C9 with the key missing and a signed-in user. *)
Lemma C9_missing_configuration_witness :
  Config.render (Some "https://example.supabase.co") None false
    (Some (mkUser "u1")) = Config.ConfigurationError.
Proof.
  apply (C9_missing_configuration (Some "https://example.supabase.co") None
           false (Some (mkUser "u1"))).
  now right.
Defined.

(** ** Unknown identifiers *)

(** C10, as stated, fails for [deleteTodo]: the cache [milk] does not
    hold "t2", the page still shows [milk; eggs] because the removal of
    [eggs] is not rendered yet, and a failed delete of "t2" puts [eggs]
    into the cache. *)
Lemma C10_stale_delete_reinserts_row :
  ~ (forall w page i e,
        absent i (todos w) ->
        todos (exec w [InvokeOn page (DeleteTodo i);
                       Settled (length (pending w)) (Failed e)]) = todos w).
Proof.
  intros H.
  specialize (H (mkWorld (Some (mkUser "u1")) [milk] "" status_todo [] [])
                (page_showing [milk; eggs]) "t2" "network").
  assert (Habs : absent "t2" [milk]) by (intros t [<- | []]; discriminate).
  specialize (H Habs); vm_compute in H; discriminate.
Qed.

(** C10, amended: for an identifier no row of the cache carries,
    [toggleTodo] and [updateTodoStatus] leave the cache as it is, after the
    optimistic update and after the completion of the write, failed or not,
    whatever the page shows.  [deleteTodo] leaves it as it is after the
    optimistic update, and after the completion of the write when its page
    shows no row with the identifier either: it then re-inserts nothing,
    and on failure it and [updateTodoStatus] only log. *)
Theorem C10_unknown_identifier (w : World) (page : Page) (i : string)
    (c : bool) (s : TodoStatus) (r : Response) :
  absent i (todos w) ->
  (todos (step w (InvokeOn page (ToggleTodo i c))) = todos w /\
   todos (exec w [InvokeOn page (ToggleTodo i c);
                  Settled (length (pending w)) r]) = todos w) /\
  (todos (step w (InvokeOn page (UpdateTodoStatus i s))) = todos w /\
   todos (exec w [InvokeOn page (UpdateTodoStatus i s);
                  Settled (length (pending w)) r]) = todos w) /\
  todos (step w (InvokeOn page (DeleteTodo i))) = todos w /\
  (absent i (p_todos page) ->
   todos (exec w [InvokeOn page (DeleteTodo i);
                  Settled (length (pending w)) r]) = todos w /\
   forall e, r = Failed e ->
     (exists msg,
         fresh_effects (step w (InvokeOn page (DeleteTodo i)))
           (Settled (length (pending w)) r) = [Logged msg]) /\
     (exists msg,
         fresh_effects (step w (InvokeOn page (UpdateTodoStatus i s)))
           (Settled (length (pending w)) r) = [Logged msg])).
Proof.
  intros Habs; repeat split.
  - first_turn; now apply set_completed_absent.
  - first_turn; rewrite settle_last, !set_completed_absent by assumption.
    destruct r; cbn [error_of run todos]; trivial.
    now apply set_completed_absent.
  - first_turn; now apply set_status_absent.
  - first_turn; rewrite settle_last, !set_status_absent by assumption.
    destruct (error_of r); [destruct (option_map _ _) |]; cbn [run todos];
      trivial.
    now apply set_status_absent.
  - first_turn; now apply remove_absent.
  - first_turn.
    rewrite settle_last, (find_absent _ _ H), !remove_absent by assumption.
    destruct r; reflexivity.
  - subst r; eexists; unfold fresh_effects; first_turn.
    rewrite settle_last, (find_absent _ _ H); cbn [error_of run log].
    apply skipn_fresh.
  - subst r; eexists; unfold fresh_effects; first_turn.
    rewrite settle_last, (find_absent _ _ H); cbn [error_of option_map run log].
    apply skipn_fresh.
Qed.

(** C10 at the cache [milk; eggs], shown by the page, for the identifier
    "t9": a failed status change and a failed delete leave the cache as it
    is. *)
Lemma C10_unknown_identifier_witness :
  todos (exec (mkWorld None [milk; eggs] "" status_todo [] [])
           [InvokeOn (page_showing [milk; eggs]) (UpdateTodoStatus "t9" status_done);
            Settled 0 (Failed "network")]) = [milk; eggs] /\
  todos (exec (mkWorld None [milk; eggs] "" status_todo [] [])
           [InvokeOn (page_showing [milk; eggs]) (DeleteTodo "t9");
            Settled 0 (Failed "network")]) = [milk; eggs].
Proof.
  assert (Habs : absent "t9" [milk; eggs])
    by (intros t [<- | [<- | []]]; discriminate).
  pose proof (C10_unknown_identifier
                (mkWorld None [milk; eggs] "" status_todo [] [])
                (page_showing [milk; eggs]) "t9" false status_done
                (Failed "network") Habs) as (_ & (_ & Hs) & _ & Hd).
  split; [exact Hs | exact (proj1 (Hd Habs))].
Defined.

(** ** The walk-through of the specification *)

(** Add "Buy milk", toggle it, set its status to done, delete it; every
    write succeeds. *)
Example buy_milk_walkthrough :
  let w1 := exec w_milk [Invoke AddTodo; Settled 0 (Row milk)] in
  let w2 := exec w1 [Invoke (onCheckedChange milk); Settled 0 NoContent] in
  let w3 := exec w2 [Invoke (UpdateTodoStatus "t1" status_done); Settled 0 NoContent] in
  let w4 := exec w3 [Invoke (DeleteTodo "t1"); Settled 0 NoContent] in
  todos w1 = [milk] /\
  todos w2 = [with_completed true milk] /\
  todos w3 = [with_status status_done (with_completed true milk)] /\
  todos w4 = [].
Proof. repeat split. Qed.

(** * Further properties of the handlers *)

(** ** The change stream *)

(** X1: An UPDATE event puts the incoming row in the place of every row carrying
    its identifier and leaves the other rows, and the list of identifiers,
    as they are. *)
Theorem update_event_replaces (w : World) (new : Todo) :
  Forall2
    (fun t t' => (id t = id new -> t' = new) /\ (id t <> id new -> t' = t))
    (todos w) (todos (step w (Realtime (UPDATE new)))) /\
  map id (todos (step w (Realtime (UPDATE new)))) = map id (todos w).
Proof.
  rewrite realtime_turn; cbn [on_postgres_changes run todos].
  split; [| apply ids_on_update].
  unfold Updater.on_update.
  induction (todos w) as [| t l IH]; simpl; constructor; [| exact IH].
  by_id t (id new); split; intros; try contradiction; reflexivity.
Qed.

(** X2: An UPDATE event for an identifier the cache does not hold changes
    nothing: it never inserts. *)
Theorem update_event_unknown (w : World) (new : Todo) :
  absent (id new) (todos w) ->
  todos (step w (Realtime (UPDATE new))) = todos w.
Proof.
  intros Habs; rewrite realtime_turn; cbn [on_postgres_changes run todos].
  unfold Updater.on_update.
  induction (todos w) as [| t l IH]; simpl; [reflexivity |].
  apply absent_cons in Habs as [Ht Hl].
  apply String.eqb_neq in Ht; rewrite Ht; f_equal; auto.
Qed.

Lemma update_event_unknown_witness :
  todos (step (mkWorld None [milk] "" status_todo [] []) (Realtime (UPDATE eggs)))
    = [milk].
Proof.
  apply (update_event_unknown (mkWorld None [milk] "" status_todo [] []) eggs).
  intros t [<- | []]; discriminate.
Defined.

Lemma on_insert_twice new l :
  Updater.on_insert new (Updater.on_insert new l) = Updater.on_insert new l.
Proof.
  unfold Updater.on_insert at 2 3.
  destruct (existsb _ l) eqn:E.
  - unfold Updater.on_insert; now rewrite E.
  - unfold Updater.on_insert; simpl; now rewrite String.eqb_refl.
Qed.

Lemma on_update_twice new l :
  Updater.on_update new (Updater.on_update new l) = Updater.on_update new l.
Proof.
  unfold Updater.on_update; rewrite map_map; apply map_ext.
  intros t; by_id t (id new).
  - now rewrite String.eqb_refl.
  - apply String.eqb_neq in Hne; now rewrite Hne.
Qed.

Lemma remove_twice i l : Updater.remove i (Updater.remove i l) = Updater.remove i l.
Proof. apply remove_absent, remove_is_absent. Qed.

(** X3: Delivering a change-stream event twice leaves the cache as delivering it
    once does, for each of the three kinds of event. *)
Theorem realtime_delivery_idempotent (w : World) (payload : Payload) :
  todos (exec w [Realtime payload; Realtime payload]) =
  todos (exec w [Realtime payload]).
Proof.
  unfold exec; cbn [fold_left]; rewrite !realtime_turn.
  destruct payload; cbn [on_postgres_changes run todos].
  - apply on_insert_twice.
  - apply on_update_twice.
  - apply remove_twice.
Qed.

(** X4: Identifiers stay unique along any sequence of change-stream events. *)
Theorem unique_ids_along_stream (payloads : list Payload) (w : World) :
  unique_ids (todos w) ->
  unique_ids (todos (exec w (map Realtime payloads))).
Proof.
  revert w; induction payloads as [| p ps IH]; intros w Hu; [exact Hu |].
  cbn [map]; unfold exec; cbn [fold_left].
  apply IH; rewrite realtime_turn.
  destruct p; cbn [on_postgres_changes run todos].
  - now apply unique_ids_on_insert.
  - now apply unique_ids_on_update.
  - now apply unique_ids_on_delete.
Qed.

Lemma unique_ids_along_stream_witness :
  unique_ids
    (todos (exec (mkWorld None [milk] "" status_todo [] [])
              (map Realtime [INSERT eggs; INSERT milk; UPDATE bread; DELETE "t1"]))).
Proof.
  apply unique_ids_along_stream.
  repeat constructor; simpl; intuition discriminate.
Defined.

(** X5: An INSERT event for a new identifier followed by the DELETE event for
    that identifier gives the cache back. *)
Theorem insert_then_delete_roundtrip (w : World) (new : Todo) :
  absent (id new) (todos w) ->
  todos (exec w [Realtime (INSERT new); Realtime (DELETE (id new))]) = todos w.
Proof.
  intros Habs; unfold exec; cbn [fold_left]; rewrite !realtime_turn.
  cbn [on_postgres_changes run todos].
  unfold Updater.on_insert, Updater.on_delete.
  rewrite (proj2 (existsb_absent _ _) Habs); simpl.
  rewrite String.eqb_refl; simpl.
  now apply remove_absent.
Qed.

Lemma insert_then_delete_roundtrip_witness :
  todos (exec (mkWorld None [milk] "" status_todo [] [])
           [Realtime (INSERT eggs); Realtime (DELETE "t2")]) = [milk].
Proof.
  apply (insert_then_delete_roundtrip
           (mkWorld None [milk] "" status_todo [] []) eggs).
  intros t [<- | []]; discriminate.
Defined.

(** ** Writes that succeed *)

(** X6: When the write of a toggle, status change, delete or bulk clear
    succeeds, its completion changes nothing: the cache stays as the
    optimistic update left it and nothing is logged. *)
Theorem success_keeps_optimistic_state (w : World) (a : Intent) (r : Response) :
  a <> AddTodo ->
  error_of r = None ->
  todos (exec w [Invoke a; Settled (length (pending w)) r]) =
    todos (step w (Invoke a)) /\
  log (exec w [Invoke a; Settled (length (pending w)) r]) =
    log (step w (Invoke a)) /\
  pending (exec w [Invoke a; Settled (length (pending w)) r]) = pending w.
Proof.
  intros Ha Hr; destruct a; [contradiction | | | |];
    first_turn; rewrite settle_last, Hr; repeat split.
Qed.

Lemma success_keeps_optimistic_state_witness :
  todos (exec (mkWorld None [milk; eggs] "" status_todo [] [])
           [Invoke (DeleteTodo "t1"); Settled 0 NoContent]) = [eggs].
Proof.
  apply (success_keeps_optimistic_state
           (mkWorld None [milk; eggs] "" status_todo [] [])
           (DeleteTodo "t1") NoContent); [discriminate | reflexivity].
Defined.

(** X7: A create whose insert succeeds puts the confirmed row at the head of the
    cache, clears the form, and the INSERT event that echoes it afterwards
    adds no second copy. *)
Theorem create_then_echo (w : World) (u : User) (data : Todo) :
  user w = Some u ->
  trim (newTodo w) <> "" ->
  todos (exec w [Invoke AddTodo; Settled (length (pending w)) (Row data)]) =
    data :: todos w /\
  newTodo (exec w [Invoke AddTodo; Settled (length (pending w)) (Row data)]) = "" /\
  newTodoStatus (exec w [Invoke AddTodo; Settled (length (pending w)) (Row data)]) =
    status_todo /\
  todos (exec w [Invoke AddTodo; Settled (length (pending w)) (Row data);
                 Realtime (INSERT data)]) = data :: todos w.
Proof.
  intros Hu Htext; apply String.eqb_neq in Htext.
  unfold exec; cbn [fold_left].
  change (step w (Invoke AddTodo)) with (run (handler w AddTodo) w).
  cbn [handler handler_on page_of p_user p_todos p_newTodo p_newTodoStatus]; unfold addTodo; rewrite Hu, Htext; cbn [run].
  rewrite settle_last; cbn [run todos newTodo newTodoStatus].
  repeat split.
  rewrite realtime_turn; cbn [on_postgres_changes run todos].
  unfold Updater.on_insert, Updater.add; simpl.
  now rewrite String.eqb_refl.
Qed.

Lemma create_then_echo_witness :
  todos (exec w_milk [Invoke AddTodo; Settled 0 (Row milk); Realtime (INSERT milk)])
    = [milk].
Proof.
  apply (create_then_echo w_milk (mkUser "u1") milk).
  - reflexivity.
  - discriminate.
Defined.

(** X8: The DELETE event that echoes a local delete leaves the optimistic state
    alone, whether it arrives after or before the completion of the
    write. *)
Theorem delete_then_echo (w : World) (i : string) (r : Response) :
  error_of r = None ->
  todos (exec w [Invoke (DeleteTodo i); Settled (length (pending w)) r;
                 Realtime (DELETE i)]) = Updater.remove i (todos w) /\
  todos (exec w [Invoke (DeleteTodo i); Realtime (DELETE i);
                 Settled (length (pending w)) r]) = Updater.remove i (todos w).
Proof.
  intros Hr; split; first_turn.
  - rewrite settle_last, Hr; cbn [run].
    rewrite realtime_turn; cbn [on_postgres_changes run todos].
    apply remove_twice.
  - rewrite realtime_turn.
    cbn [on_postgres_changes run user todos newTodo newTodoStatus pending log].
    rewrite settle_last, Hr; cbn [run todos].
    apply remove_twice.
Qed.

Lemma delete_then_echo_witness :
  todos (exec (mkWorld None [milk; eggs] "" status_todo [] [])
           [Invoke (DeleteTodo "t1"); Realtime (DELETE "t1"); Settled 0 NoContent])
    = [eggs].
Proof.
  apply (delete_then_echo (mkWorld None [milk; eggs] "" status_todo [] [])
           "t1" NoContent).
  reflexivity.
Defined.

(** ** Rows are neither added nor dropped by toggle and status *)

(** X9: Whatever the outcome of its write, a toggle or a status change leaves
    the list of identifiers of the cache as it was. *)
Theorem toggle_and_status_keep_rows (w : World) (i : string) (c : bool)
    (s : TodoStatus) (r : Response) :
  map id (todos (exec w [Invoke (ToggleTodo i c); Settled (length (pending w)) r]))
    = map id (todos w) /\
  map id (todos (exec w [Invoke (UpdateTodoStatus i s);
                         Settled (length (pending w)) r]))
    = map id (todos w).
Proof.
  split; first_turn; rewrite settle_last.
  - destruct (error_of r); cbn [run todos];
      now rewrite ?ids_set_completed.
  - destruct (error_of r); [destruct (option_map _ _) |]; cbn [run todos];
      now rewrite ?ids_set_status.
Qed.

(** X10: Checking a row and unchecking it, both writes succeeding, gives the
    cache back. *)
Theorem check_uncheck_roundtrip (w : World) (t : Todo) :
  unique_ids (todos w) ->
  In t (todos w) ->
  todos (exec w [Invoke (onCheckedChange t);
                 Settled (length (pending w)) NoContent;
                 Invoke (onCheckedChange (with_completed (negb (completed t)) t));
                 Settled (length (pending w)) NoContent]) = todos w.
Proof.
  intros Hu Hin; unfold onCheckedChange; cbn [id completed with_completed].
  unfold exec; cbn [fold_left].
  change (step w (Invoke (ToggleTodo (id t) (completed t))))
    with (run (toggleTodo (id t) (completed t)) w).
  cbn [toggleTodo run user todos newTodo newTodoStatus pending log].
  rewrite settle_last; cbn [error_of run].
  match goal with
  | |- context [step ?w0 (Invoke ?a)] =>
      change (step w0 (Invoke a)) with (run (handler w0 a) w0)
  end.
  cbn [handler handler_on page_of p_user p_todos p_newTodo p_newTodoStatus toggleTodo run user todos newTodo newTodoStatus pending log].
  rewrite settle_last; cbn [error_of run todos].
  rewrite negb_involutive.
  apply set_completed_revert.
  intros u Hin' Hid.
  destruct (In_nth_error _ _ Hin) as [n Hn].
  destruct (In_nth_error _ _ Hin') as [m Hm].
  assert (Heq : nth_error (map id (todos w)) m = nth_error (map id (todos w)) n).
  { rewrite !nth_error_map, Hn, Hm; simpl; now rewrite Hid. }
  apply NoDup_nth_error in Heq; [congruence | assumption |].
  rewrite length_map; apply nth_error_Some; congruence.
Qed.

Lemma check_uncheck_roundtrip_witness :
  todos (exec (mkWorld None [milk; eggs] "" status_todo [] [])
           [Invoke (onCheckedChange milk); Settled 0 NoContent;
            Invoke (onCheckedChange (with_completed true milk));
            Settled 0 NoContent]) = [milk; eggs].
Proof.
  apply (check_uncheck_roundtrip
           (mkWorld None [milk; eggs] "" status_todo [] []) milk).
  - repeat constructor; simpl; intuition discriminate.
  - now left.
Defined.

(** ** Order of optimistic updates *)

Lemma set_completed_set_status i c j s l :
  Updater.set_completed i c (Updater.set_status j s l) =
  Updater.set_status j s (Updater.set_completed i c l).
Proof.
  unfold Updater.set_completed, Updater.set_status.
  rewrite !map_map; apply map_ext; intros t.
  by_id t j; by_id t i; cbn [id with_completed with_status];
    repeat match goal with
           | H : id t = _ |- _ => apply String.eqb_eq in H; rewrite ?H
           | H : id t <> _ |- _ => apply String.eqb_neq in H; rewrite ?H
           end; reflexivity.
Qed.

Lemma remove_set_completed i j c l :
  Updater.remove i (Updater.set_completed j c l) =
  Updater.set_completed j c (Updater.remove i l).
Proof.
  induction l as [| t l IH]; simpl; [reflexivity |].
  assert (Hid : id (if id t =? j then with_completed c t else t) = id t)
    by (destruct (id t =? j); reflexivity).
  rewrite Hid; destruct (negb (id t =? i)); simpl; now rewrite IH.
Qed.

Lemma remove_set_status i j s l :
  Updater.remove i (Updater.set_status j s l) =
  Updater.set_status j s (Updater.remove i l).
Proof.
  induction l as [| t l IH]; simpl; [reflexivity |].
  assert (Hid : id (if id t =? j then with_status s t else t) = id t)
    by (destruct (id t =? j); reflexivity).
  rewrite Hid; destruct (negb (id t =? i)); simpl; now rewrite IH.
Qed.

(** X11: The optimistic updates of a toggle, a status change and a delete give
    the same cache in whichever order the three intents are issued, for any
    identifiers. *)
Theorem optimistic_updates_commute (w : World) (i j k : string) (c : bool)
    (s : TodoStatus) :
  todos (exec w [Invoke (ToggleTodo i c); Invoke (UpdateTodoStatus j s)]) =
  todos (exec w [Invoke (UpdateTodoStatus j s); Invoke (ToggleTodo i c)]) /\
  todos (exec w [Invoke (ToggleTodo i c); Invoke (DeleteTodo k)]) =
  todos (exec w [Invoke (DeleteTodo k); Invoke (ToggleTodo i c)]) /\
  todos (exec w [Invoke (UpdateTodoStatus j s); Invoke (DeleteTodo k)]) =
  todos (exec w [Invoke (DeleteTodo k); Invoke (UpdateTodoStatus j s)]).
Proof.
  unfold exec; cbn [fold_left].
  cbn [step handler handler_on page_of p_user p_todos p_newTodo p_newTodoStatus toggleTodo updateTodoStatus deleteTodo run
       user todos newTodo newTodoStatus pending log].
  repeat split.
  - symmetry; apply set_completed_set_status.
  - apply remove_set_completed.
  - apply remove_set_status.
Qed.

(** ** Reverts and rows deleted meanwhile *)

(** X12: When the change stream deletes a row while the write of a toggle or of
    a status change on it is in flight, and the write then fails, the revert
    does not bring the row back. *)
Theorem revert_does_not_resurrect (w : World) (i : string) (c : bool)
    (s : TodoStatus) (e : PostgrestError) :
  todos (exec w [Invoke (ToggleTodo i c); Realtime (DELETE i);
                 Settled (length (pending w)) (Failed e)])
    = Updater.remove i (todos w) /\
  todos (exec w [Invoke (UpdateTodoStatus i s); Realtime (DELETE i);
                 Settled (length (pending w)) (Failed e)])
    = Updater.remove i (todos w).
Proof.
  split; first_turn; rewrite realtime_turn;
    cbn [on_postgres_changes run user todos newTodo newTodoStatus pending log];
    rewrite settle_last; cbn [error_of run todos]; unfold Updater.on_delete.
  - fold (Updater.remove i (Updater.set_completed i (negb c) (todos w))).
    rewrite remove_set_completed.
    rewrite (set_completed_absent i (negb c)) by apply remove_is_absent.
    now rewrite set_completed_absent by apply remove_is_absent.
  - fold (Updater.remove i (Updater.set_status i s (todos w))).
    rewrite remove_set_status.
    rewrite (set_status_absent i s) by apply remove_is_absent.
    destruct (option_map _ _); cbn [run todos]; [| reflexivity].
    now rewrite set_status_absent by apply remove_is_absent.
Qed.

(** ** The add form *)

Lemma skip_space_shorter s r :
  skip_space s = Some r -> String.length r < String.length s.
Proof.
  destruct s as [| c1 s1]; [discriminate |].
  cbn [skip_space String.length].
  destruct (is_space c1); [intros H; injection H as <-; lia |].
  destruct s1 as [| c2 s2]; [discriminate |].
  cbn [String.length].
  destruct (is_space2 c1 c2); [intros H; injection H as <-; lia |].
  destruct s2 as [| c3 s3]; [discriminate |].
  cbn [String.length].
  destruct (is_space3 c1 c2 c3); [intros H; injection H as <-; lia | discriminate].
Qed.

Lemma trim_start_skip s :
  trim_start s =
    match skip_space s with
    | Some r => trim_start r
    | None => s
    end.
Proof.
  destruct s as [| c1 s1]; [reflexivity |].
  cbn [trim_start all_space skip_space].
  destruct (is_space c1); [reflexivity |].
  destruct s1 as [| c2 s2]; [reflexivity |].
  destruct (is_space2 c1 c2); [reflexivity |].
  destruct s2 as [| c3 s3]; [reflexivity |].
  destruct (is_space3 c1 c2 c3); reflexivity.
Qed.

Lemma all_space_skip s :
  all_space s =
    match s with
    | EmptyString => true
    | String _ _ =>
        match skip_space s with
        | Some r => all_space r
        | None => false
        end
    end.
Proof.
  destruct s as [| c1 s1]; [reflexivity |].
  cbn [trim_start all_space skip_space].
  destruct (is_space c1); [reflexivity |].
  destruct s1 as [| c2 s2]; [reflexivity |].
  destruct (is_space2 c1 c2); [reflexivity |].
  destruct s2 as [| c3 s3]; [reflexivity |].
  destruct (is_space3 c1 c2 c3); reflexivity.
Qed.

(** Stripping the front keeps a text blank or not blank. *)
Lemma all_space_trim_start s : all_space (trim_start s) = all_space s.
Proof.
  remember (String.length s) as n eqn:Hn.
  revert s Hn; induction n as [n IH] using lt_wf_ind; intros s Hn.
  rewrite trim_start_skip, (all_space_skip s).
  destruct (skip_space s) as [r |] eqn:E.
  - destruct s as [| c s']; [discriminate |].
    apply skip_space_shorter in E as Hlt.
    apply (IH (String.length r)); [lia | reflexivity].
  - destruct s as [| c s']; [reflexivity |].
    now rewrite all_space_skip, E.
Qed.

Lemma trim_end_empty s : trim_end s = "" <-> all_space s = true.
Proof.
  destruct s as [| c s']; [cbn; tauto |].
  cbn [trim_end]; destruct (all_space (String c s')); split;
    try reflexivity; discriminate.
Qed.

(** White space is stripped whatever its width in bytes. *)
Example trim_samples :
  trim "  Buy milk " = "Buy milk" /\
  trim (String.append nbsp (String.append "a b" ideographic_space)) = "a b" /\
  trim (String.append nbsp (String.append " " ideographic_space)) = "" /\
  trim (String.append "a" (String.append nbsp "b")) =
    String.append "a" (String.append nbsp "b").
Proof. repeat split. Qed.

(** The text counts as blank exactly when it consists of white space
    only. *)
Lemma trim_blank s : trim s = "" <-> all_space s = true.
Proof. unfold trim; now rewrite trim_end_empty, all_space_trim_start. Qed.

(** X13: The Add button is disabled exactly for a text of white space only, and
    then no key does anything: Enter runs [addTodo], which returns before
    any request or state change. *)
Theorem blank_text_is_not_submitted (w : World) (key : string) :
  Render.addDisabled (newTodo w) = all_space (newTodo w) /\
  (all_space (newTodo w) = true -> Render.handleKeyPress w key = w).
Proof.
  split.
  - unfold Render.addDisabled.
    destruct (all_space (newTodo w)) eqn:E.
    + apply String.eqb_eq, trim_blank, E.
    + apply String.eqb_neq; intros H; apply trim_blank in H; congruence.
  - intros Hblank; apply trim_blank in Hblank.
    unfold Render.handleKeyPress; destruct (key =? "Enter"); [| reflexivity].
    change (step w (Invoke AddTodo)) with (run (handler w AddTodo) w).
    cbn [handler handler_on page_of p_user p_todos p_newTodo p_newTodoStatus]; unfold addTodo; rewrite Hblank; cbn.
    now destruct (user w).
Qed.

Lemma blank_text_is_not_submitted_witness :
  Render.handleKeyPress
    (mkWorld (Some (mkUser "u1")) [milk]
       (String.append " " (String.append nbsp ideographic_space))
       status_done [] []) "Enter"
  = mkWorld (Some (mkUser "u1")) [milk]
      (String.append " " (String.append nbsp ideographic_space))
      status_done [] [].
Proof.
  apply (proj2 (blank_text_is_not_submitted
                  (mkWorld (Some (mkUser "u1")) [milk]
                     (String.append " " (String.append nbsp ideographic_space))
                     status_done [] [])
                  "Enter")).
  reflexivity.
Defined.

(** X14: Only the Enter key submits, and without a signed-in user nothing is
    submitted: the world is left as it is. *)
Theorem only_enter_submits (w : World) (key : string) :
  key <> "Enter" \/ user w = None ->
  Render.handleKeyPress w key = w.
Proof.
  unfold Render.handleKeyPress; intros [Hkey | Huser].
  - apply String.eqb_neq in Hkey; now rewrite Hkey.
  - destruct (key =? "Enter"); [| reflexivity].
    change (step w (Invoke AddTodo)) with (run (handler w AddTodo) w).
    cbn [handler handler_on page_of p_user p_todos p_newTodo p_newTodoStatus]; unfold addTodo; now rewrite Huser.
Qed.

Lemma only_enter_submits_witness :
  Render.handleKeyPress w_milk "a" = w_milk.
Proof.
  apply (only_enter_submits w_milk "a"); left; discriminate.
Defined.

(** X15: A text that is not blank, typed by a signed-in user, is submitted with
    Enter: one insert leaves, carrying the user's identifier, the trimmed
    text, which is not empty, the chosen status, and the flag unset; the
    cache and the form wait for the answer. *)
Theorem enter_submits_trimmed_text (w : World) (u : User) :
  user w = Some u ->
  all_space (newTodo w) = false ->
  fresh_effects w (Invoke AddTodo) =
    [Issued (QInsert (mkInsertRow (uid u) (trim (newTodo w)) false
                        (newTodoStatus w)))] /\
  trim (newTodo w) <> "" /\
  Render.handleKeyPress w "Enter" = step w (Invoke AddTodo) /\
  todos (step w (Invoke AddTodo)) = todos w /\
  newTodo (step w (Invoke AddTodo)) = newTodo w.
Proof.
  intros Hu Htext.
  assert (Hne : trim (newTodo w) <> "")
    by (intros H; apply trim_blank in H; congruence).
  assert (Hkey : Render.handleKeyPress w "Enter" = step w (Invoke AddTodo))
    by reflexivity.
  rewrite Hkey; clear Hkey.
  unfold fresh_effects.
  change (step w (Invoke AddTodo)) with (run (handler w AddTodo) w).
  cbn [handler handler_on page_of p_user p_todos p_newTodo p_newTodoStatus]; unfold addTodo; rewrite Hu.
  apply String.eqb_neq in Hne as Hb; rewrite Hb; cbn [run log todos newTodo].
  split; [apply skipn_fresh |].
  split; [exact Hne |].
  repeat split.
Qed.

Lemma enter_submits_trimmed_text_witness :
  fresh_effects
    (mkWorld (Some (mkUser "u1")) []
       (String.append nbsp (String.append " Buy milk " ideographic_space))
       status_done [] [])
    (Invoke AddTodo) =
  [Issued (QInsert (mkInsertRow "u1" "Buy milk" false status_done))].
Proof.
  apply (enter_submits_trimmed_text
           (mkWorld (Some (mkUser "u1")) []
              (String.append nbsp (String.append " Buy milk " ideographic_space))
              status_done [] [])
           (mkUser "u1")); reflexivity.
Defined.

(** ** The counters of the header *)

Lemma completedCount_cons t l :
  Render.completedCount (t :: l) =
  (if completed t then 1 else 0) + Render.completedCount l.
Proof. unfold Render.completedCount; simpl; now destruct (completed t). Qed.

Lemma count_split l :
  Render.completedCount l + Render.totalCount (Updater.clear l) =
  Render.totalCount l.
Proof.
  unfold Render.completedCount, Render.totalCount, Updater.clear.
  rewrite <- length_app.
  apply Permutation_length, (filter_split_perm (fun t => completed t)).
Qed.

Lemma completedCount_clear l : Render.completedCount (Updater.clear l) = 0.
Proof.
  unfold Render.completedCount, Updater.clear.
  induction l as [| t l IH]; simpl; [reflexivity |].
  destruct (completed t) eqn:E; simpl; [exact IH | now rewrite E].
Qed.

(** X16: The completed counter never exceeds the total; the clear button is
    shown only together with the progress bar, and the progress bar exactly
    when the empty-list notice is not. *)
Theorem header_is_consistent (l : list Todo) :
  Render.completedCount l <= Render.totalCount l /\
  (Render.showsClearCompleted l = true -> Render.showsProgress l = true) /\
  Render.showsProgress l = negb (Render.showsEmptyList l).
Proof.
  assert (Hle : Render.completedCount l <= Render.totalCount l).
  { pose proof (count_split l); lia. }
  unfold Render.showsClearCompleted, Render.showsProgress, Render.showsEmptyList.
  repeat split; [exact Hle | |].
  - rewrite !Nat.ltb_lt; lia.
  - unfold Render.totalCount; now destruct l.
Qed.

Lemma header_is_consistent_witness :
  Render.showsProgress [milk; eggs] = true.
Proof.
  apply (proj1 (proj2 (header_is_consistent [milk; eggs]))); reflexivity.
Defined.

(** X17: After the optimistic update of clear-completed no row counts as
    completed, the clear button is gone, and the total has dropped by the
    number of rows that were completed. *)
Theorem counts_after_clear (w : World) :
  Render.completedCount (todos (step w (Invoke ClearCompleted))) = 0 /\
  Render.showsClearCompleted (todos (step w (Invoke ClearCompleted))) = false /\
  Render.totalCount (todos (step w (Invoke ClearCompleted))) +
    Render.completedCount (todos w) = Render.totalCount (todos w).
Proof.
  first_turn; unfold Render.showsClearCompleted.
  rewrite completedCount_clear; repeat split.
  pose proof (count_split (todos w)); lia.
Qed.

Lemma toggle_count l t :
  unique_ids l -> In t l ->
  Render.completedCount
    (Updater.set_completed (id t) (negb (completed t)) l) +
    (if completed t then 1 else 0) =
  Render.completedCount l + (if completed t then 0 else 1).
Proof.
  induction l as [| u l IH]; [intros _ [] |].
  intros Hu Hin; apply unique_ids_cons in Hu as [Habs Hu].
  cbn [Updater.set_completed map].
  fold (Updater.set_completed (id t) (negb (completed t)) l).
  rewrite !completedCount_cons.
  destruct Hin as [-> | Hin].
  - rewrite String.eqb_refl, set_completed_absent by assumption.
    cbn [completed with_completed]; destruct (completed t); simpl; lia.
  - assert (Hne : id u <> id t) by (intros Heq; apply (Habs t Hin); congruence).
    apply String.eqb_neq in Hne; rewrite Hne.
    specialize (IH Hu Hin); lia.
Qed.

(** X18: Checking a row raises the completed counter by one and unchecking it
    lowers it by one; the total is unchanged. *)
Theorem toggle_moves_counter_by_one (w : World) (t : Todo) :
  unique_ids (todos w) ->
  In t (todos w) ->
  Render.completedCount (todos (step w (Invoke (onCheckedChange t)))) =
    (if completed t
     then Render.completedCount (todos w) - 1
     else Render.completedCount (todos w) + 1) /\
  Render.totalCount (todos (step w (Invoke (onCheckedChange t)))) =
    Render.totalCount (todos w).
Proof.
  intros Hu Hin; unfold onCheckedChange; first_turn; split.
  - pose proof (toggle_count _ _ Hu Hin) as H.
    destruct (completed t); lia.
  - unfold Render.totalCount, Updater.set_completed; apply length_map.
Qed.

Lemma toggle_moves_counter_by_one_witness :
  Render.completedCount
    (todos (step (mkWorld None [milk; eggs] "" status_todo [] [])
              (Invoke (onCheckedChange milk)))) = 2.
Proof.
  apply (toggle_moves_counter_by_one
           (mkWorld None [milk; eggs] "" status_todo [] []) milk).
  - repeat constructor; simpl; intuition discriminate.
  - now left.
Defined.

Lemma merge_all_right {A : Type} (l : list A) : Merge [] l l.
Proof. induction l; now constructor. Qed.

(** X19: Deleting a rendered row takes exactly that row out of the cache and
    leaves the others in their order; the request names its identifier. *)
Theorem delete_removes_one_row (w : World) (t : Todo) :
  unique_ids (todos w) ->
  In t (todos w) ->
  Merge [t] (todos (step w (Invoke (onClickDelete t)))) (todos w) /\
  fresh_effects w (Invoke (onClickDelete t)) =
    [Mutated (todos w) (todos (step w (Invoke (onClickDelete t))));
     Issued (QDelete (id t))].
Proof.
  intros Hu Hin; unfold fresh_effects, onClickDelete; first_turn.
  split; [| now rewrite <- app_assoc, skipn_fresh].
  induction (todos w) as [| u l IH]; [destruct Hin |].
  apply unique_ids_cons in Hu as [Habs Hu].
  cbn [Updater.remove filter]; fold (Updater.remove (id t) l).
  destruct Hin as [-> | Hin].
  - rewrite String.eqb_refl; cbn [negb].
    rewrite remove_absent by assumption.
    constructor; apply merge_all_right.
  - assert (Hne : id u <> id t) by (intros Heq; apply (Habs t Hin); congruence).
    apply String.eqb_neq in Hne; rewrite Hne; cbn [negb].
    constructor; now apply IH.
Qed.

Lemma delete_removes_one_row_witness :
  Merge [eggs]
    (todos (step (mkWorld None [milk; eggs; bread] "" status_todo [] [])
              (Invoke (onClickDelete eggs))))
    [milk; eggs; bread].
Proof.
  apply (delete_removes_one_row
           (mkWorld None [milk; eggs; bread] "" status_todo [] []) eggs).
  - repeat constructor; simpl; intuition discriminate.
  - right; now left.
Defined.

(** ** Status badges *)

(** X20: Every status has its entry in [statusOptions], so neither fallback of
    [getStatusColor] and [getStatusLabel] is ever taken, and distinct
    statuses get distinct labels and distinct colours. *)
Theorem status_badges (s : TodoStatus) :
  In (Render.mkOption s (Render.getStatusLabel s) (Render.getStatusColor s))
     Render.statusOptions /\
  (forall s', Render.getStatusLabel s = Render.getStatusLabel s' -> s = s') /\
  (forall s', Render.getStatusColor s = Render.getStatusColor s' -> s = s').
Proof.
  repeat split.
  - destruct s; simpl; auto.
  - intros s'; destruct s, s'; intros H; try reflexivity; discriminate H.
  - intros s'; destruct s, s'; intros H; try reflexivity; discriminate H.
Qed.

(** ** Configuration and the client *)

Lemma configured_values (supabaseUrl supabaseAnonKey : Config.EnvValue) :
  Config.hasSupabaseConfig supabaseUrl supabaseAnonKey = true ->
  exists url key,
    supabaseUrl = Some url /\ supabaseAnonKey = Some key /\
    url <> "" /\ key <> "".
Proof.
  unfold Config.hasSupabaseConfig, Config.js_and; rewrite negb_involutive.
  destruct supabaseUrl as [url |]; [| discriminate]; cbn [Config.truthy].
  destruct (String.eqb_spec url "") as [-> | Hurl]; [discriminate |].
  destruct supabaseAnonKey as [key |]; [| discriminate]; cbn.
  destruct (String.eqb_spec key "") as [-> | Hkey]; [discriminate |].
  intros _; now exists url, key.
Qed.

(** X21: The configuration counts as present exactly when both values are set to
    non-empty strings: an empty string is treated like a missing one. *)
Theorem hasSupabaseConfig_iff (supabaseUrl supabaseAnonKey : Config.EnvValue) :
  Config.hasSupabaseConfig supabaseUrl supabaseAnonKey = true <->
  exists url key,
    supabaseUrl = Some url /\ supabaseAnonKey = Some key /\
    url <> "" /\ key <> "".
Proof.
  split; [apply configured_values |].
  intros (url & key & -> & -> & Hurl & Hkey).
  unfold Config.hasSupabaseConfig, Config.js_and; rewrite negb_involutive.
  apply String.eqb_neq in Hurl, Hkey; cbn; rewrite Hurl; cbn.
  now rewrite Hkey.
Qed.

(** X22: The screen [AppContent] shows is decided in this order: missing
    configuration, loading session, missing user; the todo list is shown
    only with configuration, a loaded session and a user. *)
Theorem screen_is_decided_in_order (supabaseUrl supabaseAnonKey : Config.EnvValue)
    (loading : bool) (user : option User) :
  let screen := Config.render supabaseUrl supabaseAnonKey loading user in
  let configured := Config.hasSupabaseConfig supabaseUrl supabaseAnonKey in
  (screen = Config.ConfigurationError <-> configured = false) /\
  (screen = Config.LoadingView <-> configured = true /\ loading = true) /\
  (screen = Config.AuthModal <->
     configured = true /\ loading = false /\ user = None) /\
  (screen = Config.TodoApp <->
     configured = true /\ loading = false /\ user <> None).
Proof.
  cbv zeta; unfold Config.render, Config.AppContent.
  destruct (Config.hasSupabaseConfig supabaseUrl supabaseAnonKey),
    loading, user; cbn; repeat split;
    try discriminate; try tauto; try congruence;
    intros; intuition (try discriminate; try congruence).
Qed.

(** X23: [createClient] is never called with a missing or empty URL or key: it
    gets the two values of the environment when both count as present, and
    "https://placeholder.supabase.co" and "placeholder-key" otherwise. *)
Theorem client_arguments_are_set (supabaseUrl supabaseAnonKey : Config.EnvValue) :
  Config.truthy (fst (Client.supabase supabaseUrl supabaseAnonKey)) = true /\
  Config.truthy (snd (Client.supabase supabaseUrl supabaseAnonKey)) = true /\
  (Config.hasSupabaseConfig supabaseUrl supabaseAnonKey = true ->
   Client.supabase supabaseUrl supabaseAnonKey = (supabaseUrl, supabaseAnonKey)) /\
  (Config.hasSupabaseConfig supabaseUrl supabaseAnonKey = false ->
   Client.supabase supabaseUrl supabaseAnonKey =
     (Some "https://placeholder.supabase.co", Some "placeholder-key")).
Proof.
  unfold Client.supabase.
  destruct (Config.hasSupabaseConfig supabaseUrl supabaseAnonKey) eqn:E;
    [| repeat split; discriminate].
  apply configured_values in E as (url & key & -> & -> & Hurl & Hkey).
  apply String.eqb_neq in Hurl, Hkey; cbn; rewrite Hurl, Hkey.
  repeat split; discriminate.
Qed.

Lemma client_arguments_are_set_witness :
  Client.supabase (Some "https://example.supabase.co") (Some "anon") =
    (Some "https://example.supabase.co", Some "anon") /\
  Client.supabase (Some "https://example.supabase.co") None =
    (Some "https://placeholder.supabase.co", Some "placeholder-key").
Proof.
  split.
  - apply (proj1 (proj2 (proj2 (client_arguments_are_set
             (Some "https://example.supabase.co") (Some "anon"))))).
    reflexivity.
  - apply (proj2 (proj2 (proj2 (client_arguments_are_set
             (Some "https://example.supabase.co") None)))).
    reflexivity.
Defined.

(** ** The initial fetch *)

(** X24: However the fetch ends, the loading screen goes away.  On an error the
    cache is left as it was and one line is logged; otherwise nothing is
    logged and the cache becomes the rows received, or the empty list when
    [data] is null. *)
Theorem fetch_always_ends_loading (r : Fetch.SelectResponse) (s : Fetch.State) :
  Fetch.showsLoading (Fetch.fetchTodos r s) = false /\
  (Fetch.error r <> None ->
   Fetch.cache (Fetch.fetchTodos r s) = Fetch.cache s /\
   Fetch.console (Fetch.fetchTodos r s) =
     Fetch.console s ++ ["Error fetching todos:"]) /\
  (Fetch.error r = None ->
   Fetch.console (Fetch.fetchTodos r s) = Fetch.console s) /\
  (forall rows, Fetch.error r = None -> Fetch.data r = Some rows ->
   Fetch.cache (Fetch.fetchTodos r s) = rows) /\
  (Fetch.error r = None -> Fetch.data r = None ->
   Fetch.cache (Fetch.fetchTodos r s) = []).
Proof.
  unfold Fetch.fetchTodos, Fetch.showsLoading.
  destruct r as [d [e |]]; cbn; repeat split; try congruence.
  - intros rows _ ->; reflexivity.
  - intros _ ->; reflexivity.
Qed.

Lemma fetch_always_ends_loading_witness :
  Fetch.cache (Fetch.fetchTodos (Fetch.mkSelect (Some [milk]) (Some "offline"))
                 (Fetch.mkState [eggs] true [])) = [eggs] /\
  Fetch.cache (Fetch.fetchTodos (Fetch.mkSelect (Some [milk; bread]) None)
                 (Fetch.mkState [eggs] true [])) = [milk; bread] /\
  Fetch.cache (Fetch.fetchTodos (Fetch.mkSelect None None)
                 (Fetch.mkState [eggs] true [])) = [].
Proof.
  split; [| split].
  - apply (proj1 (proj2 (fetch_always_ends_loading
             (Fetch.mkSelect (Some [milk]) (Some "offline"))
             (Fetch.mkState [eggs] true [])))).
    discriminate.
  - apply (proj1 (proj2 (proj2 (proj2 (fetch_always_ends_loading
             (Fetch.mkSelect (Some [milk; bread]) None)
             (Fetch.mkState [eggs] true [])))))); reflexivity.
  - apply (proj2 (proj2 (proj2 (proj2 (fetch_always_ends_loading
             (Fetch.mkSelect None None)
             (Fetch.mkState [eggs] true [])))))); reflexivity.
Defined.

(** ** The list before the backend *)

(** X25: Toggling a row twice gives the state back, for any list. *)
Theorem legacy_toggle_involutive (i : string) (s : Legacy.State) :
  Legacy.toggleTodo i (Legacy.toggleTodo i s) = s.
Proof.
  destruct s as [l nt]; unfold Legacy.toggleTodo; cbn; f_equal.
  rewrite map_map; rewrite <- (map_id l) at 2; apply map_ext.
  intros [j tx c d]; cbn.
  destruct (String.eqb_spec j i) as [-> | Hne]; cbn.
  - now rewrite String.eqb_refl, negb_involutive.
  - apply String.eqb_neq in Hne; now rewrite Hne.
Qed.

(** X26: Adding a task with a fresh identifier and deleting that identifier
    gives the list back; the input stays cleared. *)
Theorem legacy_add_then_delete (uuid : string) (now : nat) (s : Legacy.State) :
  trim (Legacy.newTodo s) <> "" ->
  (forall t, In t (Legacy.todos s) -> Legacy.id t <> uuid) ->
  Legacy.deleteTodo uuid (Legacy.addTodo uuid now s) =
    Legacy.mkState (Legacy.todos s) "".
Proof.
  intros Htext Hfresh; apply String.eqb_neq in Htext.
  unfold Legacy.addTodo, Legacy.deleteTodo; rewrite Htext; cbn.
  rewrite String.eqb_refl; cbn; f_equal.
  induction (Legacy.todos s) as [| t l IH]; cbn; [reflexivity |].
  assert (Ht : Legacy.id t <> uuid) by (apply Hfresh; now left).
  apply String.eqb_neq in Ht; rewrite Ht; cbn; f_equal.
  apply IH; intros u Hu; apply Hfresh; now right.
Qed.

Lemma legacy_add_then_delete_witness :
  Legacy.deleteTodo "b"
    (Legacy.addTodo "b" 7
       (Legacy.mkState [Legacy.mkTodo "a" "A" true 1] " B "))
  = Legacy.mkState [Legacy.mkTodo "a" "A" true 1] "".
Proof.
  apply (legacy_add_then_delete "b" 7
           (Legacy.mkState [Legacy.mkTodo "a" "A" true 1] " B ")).
  - discriminate.
  - intros t [<- | []]; discriminate.
Defined.

(** X27: A blank input adds nothing; any other input puts one incomplete row
    with the trimmed text at the head of the list and clears the input. *)
Theorem legacy_add (uuid : string) (now : nat) (s : Legacy.State) :
  (all_space (Legacy.newTodo s) = true -> Legacy.addTodo uuid now s = s) /\
  (all_space (Legacy.newTodo s) = false ->
   Legacy.addTodo uuid now s =
     Legacy.mkState
       (Legacy.mkTodo uuid (trim (Legacy.newTodo s)) false now :: Legacy.todos s)
       "" /\
   trim (Legacy.newTodo s) <> "").
Proof.
  unfold Legacy.addTodo; split; intros H.
  - apply trim_blank in H; now rewrite H.
  - assert (Hne : trim (Legacy.newTodo s) <> "")
      by (intros E; apply trim_blank in E; congruence).
    apply String.eqb_neq in Hne as Hb; now rewrite Hb.
Qed.

Lemma legacy_add_witness :
  Legacy.addTodo "b" 7 (Legacy.mkState [] (String.append " " nbsp)) =
    Legacy.mkState [] (String.append " " nbsp) /\
  Legacy.addTodo "b" 7 (Legacy.mkState [] (String.append nbsp "B ")) =
    Legacy.mkState [Legacy.mkTodo "b" "B" false 7] "".
Proof.
  split.
  - apply (proj1 (legacy_add "b" 7
                    (Legacy.mkState [] (String.append " " nbsp))));
      reflexivity.
  - apply (proj2 (legacy_add "b" 7
                    (Legacy.mkState [] (String.append nbsp "B "))));
      reflexivity.
Defined.

(** ** Instances *)

Lemma status_badges_witness :
  status_in_progress = status_in_progress.
Proof.
  apply (proj1 (proj2 (status_badges status_in_progress)) status_in_progress).
  reflexivity.
Defined.

Lemma hasSupabaseConfig_iff_witness :
  Config.hasSupabaseConfig (Some "https://example.supabase.co") (Some "anon")
  = true.
Proof.
  apply (proj2 (hasSupabaseConfig_iff (Some "https://example.supabase.co")
                  (Some "anon"))).
  exists "https://example.supabase.co", "anon".
  repeat split; discriminate.
Defined.

Lemma screen_is_decided_in_order_witness :
  Config.render (Some "https://example.supabase.co") (Some "anon") false None
  = Config.AuthModal.
Proof.
  apply (proj2 (proj1 (proj2 (proj2 (screen_is_decided_in_order
           (Some "https://example.supabase.co") (Some "anon") false None))))).
  repeat split.
Defined.
